(** * Contract hooks of the ANT/ANJ converter

    A shallow embedding of the web3 contract hooks of
    [src/components/Convert/ConvertSteps.js] (second document of the file:
    [useContract], [useTokenBalance], [useBondingCurvePrice], [useAllowance],
    [useOpenOrder], [useClaimOrder]) together with the properties the
    specification states about them.

    JavaScript values are modelled by the types the code uses them at:
    big numbers are [Z], addresses are strings, [null]/[undefined] is [None],
    object identity is a reference into a heap of constructed objects,
    promises are settled by explicit events or by an oracle of the chain. *)

From Stdlib Require Import ZArith Bool List Lia.
From stdpp Require Import base option list strings gmap.

Local Open Scope string_scope.
Local Open Scope list_scope.

(** ** JavaScript preliminaries *)

(** [!!v] for a value that is a string, [null] or [undefined]. *)
Definition truthy (v : option string) : bool :=
  match v with
  | Some s => bool_decide (s ≠ "")
  | None => false
  end.

(** [s === v] for a string [s] and a value that is a string or [null]. *)
Definition strict_eq (s : string) (v : option string) : bool :=
  bool_decide (v = Some s).

(** The way a promise of the chain library settles. *)
Inductive settled (A : Type) : Type :=
| Resolved (a : A)
| Failed (reason : string).
Arguments Resolved {A} a.
Arguments Failed {A} reason.

(** ** Constants and tables (lines 29-41) *)

Definition MAINNET_CONNECTOR_WEIGHT : Z := 250000.
Definition RINKEBY_CONNECTOR_WEIGHT : Z := 33333.
Definition RETRY_EVERY : Z := 1000.

Definition connectorWeights : gmap string Z :=
  list_to_map
    [("MAINNET_CONNECTOR_WEIGHT", MAINNET_CONNECTOR_WEIGHT);
     ("RINKEBY_CONNECTOR_WEIGHT", RINKEBY_CONNECTOR_WEIGHT)].

Definition tokenDecimals : gmap string Z :=
  list_to_map [("ANT", 18%Z); ("ANJ", 18%Z)].

(** [getConnectorWeight]; [chainId] is what [environment('CHAIN_ID')]
    yields, a string or [undefined]. *)
Definition getConnectorWeight (chainId : option string) : option Z :=
  connectorWeights !!
    (if strict_eq "1" chainId
     then "MAINNET_CONNECTOR_WEIGHT"
     else "RINKEBY_CONNECTOR_WEIGHT").

Definition useTokenDecimals (symbol : string) : option Z :=
  tokenDecimals !! symbol.

(** ** The contract handle cache (lines 37, 50-74) *)

Record abi := Abi { abi_fragments : list string }.

Record provider := Provider { provider_id : nat }.

(** Third argument of [new EthersContract]: [ethersProvider.getSigner()]
    or [ethersProvider] itself. *)
Inductive runner :=
| SignerOf (p : provider)
| ReadOnly (p : provider).

Record contract := Contract {
  contract_address : string;
  contract_abi : abi;
  contract_runner : runner
}.

(** What [useWeb3Connect()] returns. *)
Record web3 := Web3 {
  account : option string;
  ethersProvider : option provider
}.

(** The module-level [contractsCache] maps an address to a contract object.
    Objects live in [objects]; a handle is the position of the object, so
    two handles are the same object exactly when they are equal. *)
Record cache := Cache {
  contractsCache : gmap string nat;
  objects : list contract
}.

Definition empty_cache : cache := Cache ∅ [].

Definition useContract (address : option string) (a : abi)
    (signer : option bool) (conn : web3) (st : cache) : option nat * cache :=
  if negb (truthy address) || negb (bool_decide (is_Some (ethersProvider conn)))
  then (None, st)
  else
    match address, ethersProvider conn with
    | Some addr, Some p =>
        match contractsCache st !! addr with
        | Some h => (Some h, st)
        | None =>
            let h := length (objects st) in
            let c := Contract addr a
                       (if default true signer then SignerOf p else ReadOnly p) in
            (Some h,
             Cache (<[addr := h]> (contractsCache st)) (objects st ++ [c]))
        end
    | _, _ => (None, st)
    end.

(** [getKnownContract] lives in [./known-contracts]; it is taken as a
    parameter: a name gives an address (possibly [undefined]) and an
    interface descriptor. *)
Definition known_contracts := string → option string * abi.

Definition useKnownContract (getKnownContract : known_contracts)
    (name : string) (signer : option bool) (conn : web3) (st : cache)
  : option nat * cache :=
  let '(address, a) := getKnownContract name in
  useContract address a signer conn st.

(** A call of [useContract] with its arguments, to run sequences of calls
    against the same process-wide cache. *)
Record lookup_call := LookupCall {
  lc_address : option string;
  lc_abi : abi;
  lc_signer : option bool;
  lc_conn : web3
}.

Definition run_lookups (calls : list lookup_call) (st : cache) : cache :=
  foldl (λ s c, (useContract (lc_address c) (lc_abi c) (lc_signer c)
                   (lc_conn c) s).2) st calls.

(** ** The balance tracker, [useTokenBalance] (lines 80-137) *)

(** One call of [tokenContract.balanceOf]: the address asked for, the
    [cancelled] variable of the [updateBalance] invocation that issued it,
    and whether its promise has settled. *)
Record fetch := Fetch {
  fetch_target : option string;
  fetch_cancelled : bool;
  fetch_settled : bool
}.

(** [balance] is the React state, [cancelBalanceUpdate] the ref: when set,
    it holds the closure that sets the [cancelled] variable of fetch [i]. *)
Record tracker := Tracker {
  balance : Z;
  cancelBalanceUpdate : option nat;
  fetches : list fetch
}.

Definition tracker_init : tracker := Tracker (-1) None [].

(** The values [updateBalance] closes over. *)
Record deps := Deps {
  dep_account : option string;
  dep_address : string;
  dep_tokenContract : option nat
}.

(** [(!account && !address) || !tokenContract] *)
Definition no_target (d : deps) : bool :=
  (negb (truthy (dep_account d)) && negb (truthy (Some (dep_address d))))
  || negb (bool_decide (is_Some (dep_tokenContract d))).

Definition mark_cancelled (f : fetch) : fetch :=
  Fetch (fetch_target f) true (fetch_settled f).

Definition mark_settled (f : fetch) : fetch :=
  Fetch (fetch_target f) (fetch_cancelled f) true.

Definition updateBalance (d : deps) (t : tracker) : tracker :=
  let fs :=
    match cancelBalanceUpdate t with
    | Some i => alter mark_cancelled i (fetches t)
    | None => fetches t
    end in
  if no_target d then Tracker (-1) None fs
  else
    let requestedAddress :=
      if truthy (Some (dep_address d)) then Some (dep_address d)
      else dep_account d in
    Tracker (balance t) (Some (length fs))
      (fs ++ [Fetch requestedAddress false false]).

(** The [then] callback of fetch [i], run when its promise resolves to [v].
    A promise settles once. *)
Definition balanceResolved (i : nat) (v : Z) (t : tracker) : tracker :=
  match fetches t !! i with
  | Some f =>
      if fetch_settled f then t
      else Tracker (if fetch_cancelled f then balance t else v)
             (cancelBalanceUpdate t) (<[i := mark_settled f]> (fetches t))
  | None => t
  end.

(** The promise of fetch [i] rejects: there is no handler. *)
Definition balanceRejected (i : nat) (t : tracker) : tracker :=
  match fetches t !! i with
  | Some f =>
      if fetch_settled f then t
      else Tracker (balance t) (cancelBalanceUpdate t)
             (<[i := mark_settled f]> (fetches t))
  | None => t
  end.

(** The listener registered by the effect (lines 119-128). *)
Definition onTransfer (d : deps) (from to : string) (value : Z)
    (t : tracker) : tracker :=
  if strict_eq from (dep_account d) || strict_eq to (dep_account d)
     || bool_decide (from = dep_address d) || bool_decide (to = dep_address d)
  then updateBalance d t
  else t.

(** The effect registers the listener only past its guard (line 115). *)
Definition subscribes (d : deps) : bool := negb (no_target d).

(** The effect body: refresh, then subscribe when there is a target. *)
Definition trackerEffect (d : deps) (t : tracker) : tracker * bool :=
  (updateBalance d t, subscribes d).

(** A [Transfer] event of the token reaches [onTransfer] only while the
    listener of the render with dependencies [d] is registered. *)
Definition transferEvent (d : deps) (from to : string) (value : Z)
    (t : tracker) : tracker :=
  if subscribes d then onTransfer d from to value t else t.

Inductive tracker_event :=
| Refresh (d : deps)
| BalanceResolved (i : nat) (v : Z)
| BalanceRejected (i : nat)
| TransferEmitted (d : deps) (from to : string) (value : Z).

Definition tracker_step (t : tracker) (e : tracker_event) : tracker :=
  match e with
  | Refresh d => updateBalance d t
  | BalanceResolved i v => balanceResolved i v t
  | BalanceRejected i => balanceRejected i t
  | TransferEmitted d from to value => transferEvent d from to value t
  end.

Definition tracker_run (es : list tracker_event) (t : tracker) : tracker :=
  foldl tracker_step t es.

(** States the tracker can be in: any sequence of events from the start. *)
Definition tracker_reachable (t : tracker) : Prop :=
  ∃ es, t = tracker_run es tracker_init.

(** Events that settle the promise of a fetch other than the one the ref
    [cancelBalanceUpdate] points to ([cur]); no refresh among them. *)
Definition settles_outside (cur : option nat) (e : tracker_event) : Prop :=
  match e with
  | BalanceResolved j _ | BalanceRejected j => cur ≠ Some j
  | _ => False
  end.

(** Every fetch but the one the ref points to has been cancelled. *)
Definition tracker_wf (t : tracker) : Prop :=
  ∀ i f, fetches t !! i = Some f → cancelBalanceUpdate t ≠ Some i →
         fetch_cancelled f = true.

(** The account or the address of the tracker is a party of a transfer. *)
Definition tracked (d : deps) (from to : string) : Prop :=
  dep_account d = Some from ∨ dep_account d = Some to
  ∨ from = dep_address d ∨ to = dep_address d.

(** The dependencies of the tracker for a token symbol and an optional
    address argument (default ['']). *)
Definition useTokenBalance_deps (getKnownContract : known_contracts)
    (symbol : string) (address : option string) (conn : web3) (st : cache)
  : deps * cache :=
  let '(tokenContract, st') :=
    useKnownContract getKnownContract ("TOKEN_" +:+ symbol) None conn st in
  (Deps (account conn) (default "" address) tokenContract, st').

(** ** The price oracle, [useBondingCurvePrice] (lines 139-200) *)

(** The dependencies of the effect. *)
Record quote_inputs := QuoteInputs {
  q_amount : Z;
  q_forwards : bool;
  q_anjContract : option nat;
  q_bancorContract : option nat;
  q_antTreasuryBalance : Z;
  q_connectorWeight : option Z
}.

Inductive oracle_call :=
| TotalSupply (c : nat)
| CalculatePurchaseReturn (c : nat) (supply reserve : Z) (weight : option Z)
    (amount : Z)
| CalculateSaleReturn (c : nat) (supply reserve : Z) (weight : option Z)
    (amount : Z).

(** Where the current invocation of [getSalePrice] stands. *)
Inductive phase :=
| NotStarted    (* the effect returned at its guard, line 153 *)
| AwaitSupply   (* suspended at [await anjContract.totalSupply()] *)
| AwaitPrice    (* suspended at the await of the formula call *)
| RetryDelay    (* the timer of line 179 is pending *)
| Finished.     (* the invocation ended and scheduled nothing *)

(** [loading] and [price] are the React state of the hook; [cancelled] and
    [retryTimer] the variables of one run of the effect; [requests] the
    calls issued so far. [retryTimer] holds the delay of a pending timer. *)
Record quote := Quote {
  loading : bool;
  price : Z;
  cancelled : bool;
  retryTimer : option Z;
  attempt : phase;
  requests : list oracle_call
}.


(** The [catch] block (lines 177-181). *)
Definition on_failure (q : quote) : quote :=
  if cancelled q
  then Quote (loading q) (price q) (cancelled q) (retryTimer q) Finished
         (requests q)
  else Quote (loading q) (price q) (cancelled q) (Some RETRY_EVERY) RetryDelay
         (requests q).

(** [getSalePrice] up to its first await (lines 157-159). Calling a method
    of a missing contract throws inside the [try]. *)
Definition getSalePrice (inp : quote_inputs) (q : quote) : quote :=
  let q1 := Quote true (price q) (cancelled q) (retryTimer q) (attempt q)
              (requests q) in
  match q_anjContract inp with
  | Some c =>
      Quote true (price q) (cancelled q) (retryTimer q) AwaitSupply
        (requests q ++ [TotalSupply c])
  | None => on_failure q1
  end.

(** The effect body (lines 148-184) on the hook state left by earlier
    renders. *)
Definition priceEffect (inp : quote_inputs) (loading0 : bool) (price0 : Z)
  : quote :=
  let q0 := Quote loading0 price0 false None NotStarted [] in
  if negb (bool_decide (is_Some (q_anjContract inp)))
     || (q_antTreasuryBalance inp =? -1)%Z
     || negb (bool_decide (is_Some (q_bancorContract inp)))
  then q0
  else getSalePrice inp q0.

Inductive oracle_event :=
| SupplySettled (r : settled Z)
| PriceSettled (r : settled Z)
| TimerFired
| Cleanup.

(** One turn of the event loop; [None] when the event cannot happen in
    this state. *)
Definition oracle_step (inp : quote_inputs) (q : quote) (e : oracle_event)
  : option quote :=
  match e, attempt q with
  | SupplySettled (Resolved anjTotalSupply), AwaitSupply =>
      match q_bancorContract inp with
      | Some b =>
          let call :=
            if q_forwards inp
            then CalculatePurchaseReturn b anjTotalSupply
                   (q_antTreasuryBalance inp) (q_connectorWeight inp)
                   (q_amount inp)
            else CalculateSaleReturn b anjTotalSupply
                   (q_antTreasuryBalance inp) (q_connectorWeight inp)
                   (q_amount inp) in
          Some (Quote (loading q) (price q) (cancelled q) (retryTimer q)
                  AwaitPrice (requests q ++ [call]))
      | None => Some (on_failure q)
      end
  | SupplySettled (Failed _), AwaitSupply => Some (on_failure q)
  | PriceSettled (Resolved salePrice), AwaitPrice =>
      if cancelled q
      then Some (Quote (loading q) (price q) (cancelled q) (retryTimer q)
                   Finished (requests q))
      else Some (Quote false salePrice (cancelled q) (retryTimer q)
                   Finished (requests q))
  | PriceSettled (Failed _), AwaitPrice => Some (on_failure q)
  | TimerFired, RetryDelay =>
      Some (getSalePrice inp
              (Quote (loading q) (price q) (cancelled q) None (attempt q)
                 (requests q)))
  | Cleanup, (AwaitSupply | AwaitPrice | Finished) =>
      if cancelled q then None
      else Some (Quote (loading q) (price q) true None (attempt q)
                   (requests q))
  | Cleanup, RetryDelay =>
      Some (Quote (loading q) (price q) true None Finished (requests q))
  | _, _ => None
  end.

Fixpoint oracle_run (inp : quote_inputs) (es : list oracle_event) (q : quote)
  : option quote :=
  match es with
  | [] => Some q
  | e :: es' =>
      match oracle_step inp q e with
      | Some q' => oracle_run inp es' q'
      | None => None
      end
  end.


(** The inputs the hook hands to its effect: the two contracts, the
    balance of the treasury as tracked by [useTokenBalance] (state [t]) and
    the connector weight. The tracker's dependencies are returned too. *)
Definition useBondingCurvePrice_inputs (getKnownContract : known_contracts)
    (chainId : option string) (amount : Z) (forwards : option bool)
    (t : tracker) (conn : web3) (st : cache)
  : quote_inputs * deps * cache :=
  let '(anjContract, st1) :=
    useKnownContract getKnownContract "TOKEN_ANJ" None conn st in
  let '(bancorContract, st2) :=
    useKnownContract getKnownContract "BANCOR_FORMULA" None conn st1 in
  let '(treasuryAddress, _) := getKnownContract "BONDING_CURVE_TREASURY" in
  let '(d, st3) :=
    useTokenBalance_deps getKnownContract "ANT" treasuryAddress conn st2 in
  (QuoteInputs amount (default true forwards) anjContract bancorContract
     (balance t) (getConnectorWeight chainId), d, st3).

(** ** Transactions: [useAllowance], [useOpenOrder], [useClaimOrder]
    (lines 202-268) *)

Record overrides := Overrides {
  gasLimit : Z;
  value : option Z
}.

(** State-changing contract calls. *)
Inductive transaction_call :=
| Approve (c : nat) (spender : option string) (amount : Z)
| OpenBuyOrder (c : nat) (token : option string) (amount : Z) (o : overrides)
| OpenSellOrder (c : nat) (token : option string) (amount : Z) (o : overrides)
| ClaimBuyOrder (c : nat) (buyer : option string) (batchId : option Z)
    (token : option string) (o : overrides)
| ClaimSellOrder (c : nat) (seller : option string) (batchId : option Z)
    (token : option string) (o : overrides).

Inductive request :=
| QueryAllowance (c : nat) (owner spender : option string)
| QueryTransaction (p : provider) (hash : string)
| Submit (tx : transaction_call).

Record tx_response := TxResponse { response_hash : string }.

(** What [getTransaction] resolves to; [blockNumber] is [null] while the
    transaction is pending. *)
Record transaction := Transaction {
  transaction_hash : string;
  blockNumber : option Z
}.

(** The chain as the hooks see it: how each call settles. *)
Record chain := Chain {
  allowance_of : nat → option string → option string → settled Z;
  transaction_of : provider → string → settled (option transaction);
  send : transaction_call → settled tx_response
}.

(** What a callback returns. *)
Inductive js_result :=
| JsFalse
| JsUndefined
| JsResponse (r : tx_response).

(** How an [async] function ends: with a value, or rejected, either by a
    [TypeError] for a property read on [null]/[undefined] or by the
    rejection of an awaited promise. *)
Inductive js_error :=
| TypeErrorOn (property : string)
| Rejection (reason : string).

Inductive outcome (A : Type) : Type :=
| Returned (a : A)
| Thrown (e : js_error).
Arguments Returned {A} a.
Arguments Thrown {A} e.

(** Computations that issue requests (appended to a log) and may throw. *)
Definition async (A : Type) : Type := list request → outcome A * list request.

Definition async_throw {A} (e : js_error) : async A := λ log, (Thrown e, log).

#[global] Instance async_ret : MRet async := λ A a log, (Returned a, log).

#[global] Instance async_bind : MBind async := λ A B k m log,
  match m log with
  | (Returned a, log') => k a log'
  | (Thrown e, log') => (Thrown e, log')
  end.

Definition await {A} (r : request) (s : settled A) : async A :=
  λ log,
    match s with
    | Resolved a => (Returned a, log ++ [r])
    | Failed reason => (Thrown (Rejection reason), log ++ [r])
    end.

(** The callback of [useAllowance] (lines 208-217). *)
Definition ensureAllowance (w : chain) (account : option string)
    (antContract : option nat) (marketMakerAddress : option string)
    (amount : Z) : async js_result :=
  match antContract with
  | None => mret JsFalse
  | Some c =>
      allowance ← await (QueryAllowance c account marketMakerAddress)
                    (allowance_of w c account marketMakerAddress);
      if (allowance <? amount)%Z
      then
        r ← await (Submit (Approve c marketMakerAddress amount))
              (send w (Approve c marketMakerAddress amount));
        mret (JsResponse r)
      else mret JsUndefined
  end.

Definition useAllowance (getKnownContract : known_contracts) (w : chain)
    (conn : web3) (st : cache) : (Z → async js_result) * cache :=
  let '(antContract, st') :=
    useKnownContract getKnownContract "TOKEN_ANT" None conn st in
  let '(marketMakerAddress, _) := getKnownContract "MARKET_MAKER" in
  (ensureAllowance w (account conn) antContract marketMakerAddress, st').

(** The callback of [useOpenOrder] (lines 228-241); [toAnj] defaults to
    [true]. *)
Definition openOrder (w : chain) (fundraisingContract : option nat)
    (antAddress : option string) (amount : Z) (toAnj : option bool)
  : async js_result :=
  match fundraisingContract with
  | None => mret JsFalse
  | Some c =>
      let tx :=
        if default true toAnj
        then OpenBuyOrder c antAddress amount (Overrides 650000 (Some 0%Z))
        else OpenSellOrder c antAddress amount (Overrides 850000 None) in
      r ← await (Submit tx) (send w tx);
      mret (JsResponse r)
  end.

Definition useOpenOrder (getKnownContract : known_contracts) (w : chain)
    (conn : web3) (st : cache) : (Z → option bool → async js_result) * cache :=
  let '(fundraisingContract, st') :=
    useKnownContract getKnownContract "FUNDRAISING" None conn st in
  let '(antAddress, _) := getKnownContract "TOKEN_ANT" in
  (openOrder w fundraisingContract antAddress, st').

(** The callback of [useClaimOrder] (lines 252-265). Reading a method of a
    missing provider or contract, or destructuring a missing transaction,
    throws a [TypeError]. *)
Definition claimOrder (w : chain) (account : option string)
    (ethersProvider : option provider) (fundraisingContract : option nat)
    (antAddress : option string) (openOrderTransactionHash : string)
    (toAnj : option bool) : async js_result :=
  match ethersProvider with
  | None => async_throw (TypeErrorOn "getTransaction")
  | Some p =>
      found ← await (QueryTransaction p openOrderTransactionHash)
                (transaction_of w p openOrderTransactionHash);
      match found with
      | None => async_throw (TypeErrorOn "blockNumber")
      | Some t =>
          let batchId := blockNumber t in
          if default true toAnj
          then
            match fundraisingContract with
            | None => async_throw (TypeErrorOn "claimBuyOrder")
            | Some c =>
                let tx := ClaimBuyOrder c account batchId antAddress
                            (Overrides 500000 None) in
                r ← await (Submit tx) (send w tx);
                mret (JsResponse r)
            end
          else
            match fundraisingContract with
            | None => async_throw (TypeErrorOn "claimSellOrder")
            | Some c =>
                let tx := ClaimSellOrder c account batchId antAddress
                            (Overrides 500000 None) in
                r ← await (Submit tx) (send w tx);
                mret (JsResponse r)
            end
      end
  end.

Definition useClaimOrder (getKnownContract : known_contracts) (w : chain)
    (conn : web3) (st : cache)
  : (string → option bool → async js_result) * cache :=
  let '(fundraisingContract, st') :=
    useKnownContract getKnownContract "FUNDRAISING" None conn st in
  let '(antAddress, _) := getKnownContract "TOKEN_ANT" in
  (claimOrder w (account conn) (ethersProvider conn) fundraisingContract
     antAddress, st').

(** What awaiting a submitted transaction and returning its result gives. *)
Definition submission_result (s : settled tx_response) : outcome js_result :=
  match s with
  | Resolved r => Returned (JsResponse r)
  | Failed reason => Thrown (Rejection reason)
  end.

(** The state-changing calls of a log. *)
Definition submitted (log : list request) : list transaction_call :=
  omap (λ r, match r with Submit tx => Some tx | _ => None end) log.

(** ** Observations on states and logs *)

(** The cache and the objects agree: a cached address names an object of
    that address, every object is cached under its address, no entry is
    kept for the empty address, and there is one object per entry. *)
Definition cache_wf (st : cache) : Prop :=
  (∀ key h, contractsCache st !! key = Some h →
            ∃ c, objects st !! h = Some c ∧ contract_address c = key)
  ∧ (∀ h c, objects st !! h = Some c →
            contractsCache st !! contract_address c = Some h)
  ∧ contractsCache st !! "" = None
  ∧ length (objects st) = size (contractsCache st).

(** The values the balance promises of a trace resolved to. *)
Definition resolved_values (es : list tracker_event) : list Z :=
  omap (λ e, match e with BalanceResolved _ v => Some v | _ => None end) es.

(** The number of [totalSupply] requests of a log: one per invocation of
    [getSalePrice] that reached the call. *)
Definition is_supply_request (r : oracle_call) : bool :=
  match r with
  | TotalSupply _ => true
  | _ => false
  end.

Definition supply_requests (l : list oracle_call) : nat :=
  length (List.filter is_supply_request l).

(** The number of retry timers that fired in a trace. *)
Definition is_timer (e : oracle_event) : bool :=
  match e with
  | TimerFired => true
  | _ => false
  end.

Definition timers_fired (es : list oracle_event) : nat :=
  length (List.filter is_timer es).

(** A request as the effect with inputs [inp] issues it. *)
Definition valid_request (inp : quote_inputs) (r : oracle_call) : Prop :=
  match r with
  | TotalSupply c => q_anjContract inp = Some c
  | CalculatePurchaseReturn b _ reserve weight amount =>
      q_forwards inp = true ∧ q_bancorContract inp = Some b
      ∧ reserve = q_antTreasuryBalance inp
      ∧ weight = q_connectorWeight inp ∧ amount = q_amount inp
  | CalculateSaleReturn b _ reserve weight amount =>
      q_forwards inp = false ∧ q_bancorContract inp = Some b
      ∧ reserve = q_antTreasuryBalance inp
      ∧ weight = q_connectorWeight inp ∧ amount = q_amount inp
  end.

(** The requests issued so far are those of the inputs, and none was
    issued unless the effect passed its guard. *)
Definition requests_inv (inp : quote_inputs) (q : quote) : Prop :=
  Forall (valid_request inp) (requests q)
  ∧ (q_antTreasuryBalance inp ≠ (-1)%Z
     ∨ requests q = [] ∧ attempt q = NotStarted).

(** A cancelled run of the effect with no timer pending. *)
Definition quote_cancelled (q : quote) : Prop :=
  cancelled q = true ∧ retryTimer q = None ∧ attempt q ≠ RetryDelay.

(** The awaits a cancelled run can still pass. *)
Definition awaits_left (q : quote) : nat :=
  match attempt q with
  | AwaitSupply => 2
  | AwaitPrice => 1
  | _ => 0
  end.

(** The ether a transaction carries: the [value] of its overrides. *)
Definition tx_value (tx : transaction_call) : option Z :=
  match tx with
  | Approve _ _ _ => None
  | OpenBuyOrder _ _ _ o | OpenSellOrder _ _ _ o
  | ClaimBuyOrder _ _ _ _ o | ClaimSellOrder _ _ _ _ o => value o
  end.

(** A call that started with the log [before] and ended with [after] only
    appended requests, among them at most one transaction, and that one
    carries no ether. *)
Definition sends_at_most_one (before after : list request) : Prop :=
  ∃ new, after = before ++ new
         ∧ (length (submitted new) ≤ 1)%nat
         ∧ Forall (λ tx, tx_value tx = None ∨ tx_value tx = Some 0%Z)
             (submitted new).

(** The contract object a transaction is sent to. *)
Definition tx_handle (tx : transaction_call) : nat :=
  match tx with
  | Approve c _ _ | OpenBuyOrder c _ _ _ | OpenSellOrder c _ _ _
  | ClaimBuyOrder c _ _ _ _ | ClaimSellOrder c _ _ _ _ => c
  end.

(** An attempt of [getSalePrice] that fails, at the supply request or at
    the formula call, followed by the retry timer firing. *)
Inductive failed_attempt :=
| SupplyFails (reason : string)
| PriceFails (anjTotalSupply : Z) (reason : string).

Definition failed_attempt_events (f : failed_attempt) : list oracle_event :=
  match f with
  | SupplyFails reason => [SupplySettled (Failed reason); TimerFired]
  | PriceFails anjTotalSupply reason =>
      [SupplySettled (Resolved anjTotalSupply); PriceSettled (Failed reason);
       TimerFired]
  end.

Definition retries (fs : list failed_attempt) : list oracle_event :=
  concat (map failed_attempt_events fs).

(** ** Sample data for the scenarios below *)

(** A render in which both contracts and the treasury balance are there. *)
Definition ready_inputs : quote_inputs :=
  QuoteInputs 100 true (Some 0) (Some 1) 5000 (Some 33333%Z).

(** A registry with the token, the market maker and the fundraising
    contract; one with no contract at all. *)
Definition sample_known : known_contracts := λ name,
  if bool_decide (name = "TOKEN_ANT")
  then (Some "0xANT", Abi ["allowance"; "approve"; "balanceOf"])
  else if bool_decide (name = "MARKET_MAKER")
  then (Some "0xMM", Abi [])
  else if bool_decide (name = "FUNDRAISING")
  then (Some "0xFUND", Abi ["openBuyOrder"; "openSellOrder";
                            "claimBuyOrder"; "claimSellOrder"])
  else (None, Abi []).

Definition empty_known : known_contracts := λ _, (None, Abi []).

(** A registry that knows the token but not the market maker. *)
Definition token_only_known : known_contracts := λ name,
  if bool_decide (name = "TOKEN_ANT")
  then (Some "0xANT", Abi ["allowance"; "approve"; "balanceOf"])
  else (None, Abi []).

(** A chain on which the allowance is 10, the transaction [0xopen] is in
    block 1234 and every submission succeeds; one whose node is down. *)
Definition sample_chain : chain :=
  Chain (λ _ _ _, Resolved 10%Z)
    (λ _ hash,
       if bool_decide (hash = "0xopen")
       then Resolved (Some (Transaction "0xopen" (Some 1234%Z)))
       else Resolved None)
    (λ _, Resolved (TxResponse "0xsent")).

Definition failing_chain : chain :=
  Chain (λ _ _ _, Failed "network error")
    (λ _ _, Failed "network error")
    (λ _, Failed "network error").

Definition sample_conn : web3 := Web3 (Some "0xUSER") (Some (Provider 0)).

(** * Properties *)

(** ** Connector weight *)

Lemma connectorWeights_mainnet :
  connectorWeights !! "MAINNET_CONNECTOR_WEIGHT" = Some 250000%Z.
Proof. reflexivity. Qed.

Lemma connectorWeights_rinkeby :
  connectorWeights !! "RINKEBY_CONNECTOR_WEIGHT" = Some 33333%Z.
Proof. reflexivity. Qed.

(** C7: the connector weight is a function of the chain identifier alone:
    250000 for the identifier '1' and 33333 for every other one, also an
    unknown or missing one; whatever the amount, the direction, the
    connection, the tracker and the cache are in a render, the weight handed
    to the price effect is that value. *)
Theorem connector_weight_by_chain (chainId : option string) :
  getConnectorWeight chainId =
    Some (if bool_decide (chainId = Some "1") then 250000%Z else 33333%Z)
  ∧ ∀ known amount forwards t conn st,
      q_connectorWeight
        (useBondingCurvePrice_inputs known chainId amount forwards t conn st).1.1
      = getConnectorWeight chainId.
Proof.
  split.
  - unfold getConnectorWeight, strict_eq.
    case_bool_decide.
    + apply connectorWeights_mainnet.
    + apply connectorWeights_rinkeby.
  - intros known amount forwards t conn st.
    unfold useBondingCurvePrice_inputs.
    destruct (useKnownContract known "TOKEN_ANJ" None conn st) as [anj st1].
    destruct (useKnownContract known "BANCOR_FORMULA" None conn st1) as [ban st2].
    destruct (known "BONDING_CURVE_TREASURY") as [treasury ?].
    destruct (useTokenBalance_deps known "ANT" treasury conn st2) as [d st3].
    reflexivity.
Qed.

(** ** Contract handle cache *)

Lemma useContract_unavailable address a signer conn st :
  truthy address = false ∨ ethersProvider conn = None →
  useContract address a signer conn st = (None, st).
Proof.
  unfold useContract. intros [Ha | Hp].
  - rewrite Ha. reflexivity.
  - rewrite Hp. rewrite orb_true_r. reflexivity.
Qed.

Lemma useContract_cached addr a signer conn st h :
  addr ≠ "" → is_Some (ethersProvider conn) →
  contractsCache st !! addr = Some h →
  useContract (Some addr) a signer conn st = (Some h, st).
Proof.
  intros Hne [p Hp] Hc. unfold useContract. rewrite Hp, Hc. simpl.
  rewrite bool_decide_true by done. reflexivity.
Qed.

Lemma useContract_fresh addr a signer conn p st :
  addr ≠ "" → ethersProvider conn = Some p →
  contractsCache st !! addr = None →
  useContract (Some addr) a signer conn st =
    (Some (length (objects st)),
     Cache (<[addr := length (objects st)]> (contractsCache st))
       (objects st ++
          [Contract addr a
             (if default true signer then SignerOf p else ReadOnly p)])).
Proof.
  intros Hne Hp Hc. unfold useContract. rewrite Hp, Hc. simpl.
  rewrite bool_decide_true by done. reflexivity.
Qed.

(** A call leaves every cached entry and every constructed object as it
    is: nothing is evicted, nothing is rebound. *)
Lemma useContract_preserves address a signer conn st key h :
  contractsCache st !! key = Some h →
  contractsCache (useContract address a signer conn st).2 !! key = Some h
  ∧ ∀ i c, objects st !! i = Some c →
           objects (useContract address a signer conn st).2 !! i = Some c.
Proof.
  intros Hk. unfold useContract.
  destruct (negb (truthy address) || _); [by split |].
  destruct address as [addr |]; [| by split].
  destruct (ethersProvider conn) as [p |]; [| by split].
  destruct (contractsCache st !! addr) as [h' |] eqn:Hc; [by split |].
  simpl. split.
  - rewrite lookup_insert_ne; [done |]. intros ->. congruence.
  - intros i c Hi. by apply lookup_app_l_Some.
Qed.

Lemma run_lookups_preserves calls st key h :
  contractsCache st !! key = Some h →
  contractsCache (run_lookups calls st) !! key = Some h
  ∧ ∀ i c, objects st !! i = Some c →
           objects (run_lookups calls st) !! i = Some c.
Proof.
  revert st. induction calls as [| call calls IH]; intros st Hk; [by split |].
  unfold run_lookups. simpl.
  destruct (useContract_preserves (lc_address call) (lc_abi call)
              (lc_signer call) (lc_conn call) st key h Hk) as [Hk' Ho].
  destruct (IH _ Hk') as [Hk'' Ho']. split; [exact Hk'' |].
  intros i c Hi. apply Ho', Ho, Hi.
Qed.

Lemma cache_wf_empty : cache_wf empty_cache.
Proof.
  split; [| split; [| split]]; done.
Qed.

Lemma useContract_wf address a signer conn st :
  cache_wf st → cache_wf (useContract address a signer conn st).2.
Proof.
  intros Hwf. unfold useContract.
  destruct (negb (truthy address) || _) eqn:Hguard; [done |].
  destruct address as [addr |]; [| done].
  destruct (ethersProvider conn) as [p |]; [| done].
  destruct (contractsCache st !! addr) as [h' |] eqn:Hc; [done |].
  assert (Hne : addr ≠ "").
  { apply orb_false_iff in Hguard as [Ht _]. apply negb_false_iff in Ht.
    simpl in Ht. by apply bool_decide_eq_true in Ht. }
  destruct Hwf as (Hkey & Hobj & Hempty & Hsize). simpl.
  split; [| split; [| split]]; simpl.
  - intros key h Hk. destruct (decide (addr = key)) as [<- | Hkey'].
    + rewrite lookup_insert_eq in Hk. injection Hk as <-.
      eexists. split.
      * rewrite lookup_app_r by lia. by rewrite Nat.sub_diag.
      * reflexivity.
    + rewrite lookup_insert_ne in Hk by done.
      destruct (Hkey key h Hk) as (c & Hc' & Haddr).
      exists c. split; [by apply lookup_app_l_Some | done].
  - intros h c Hh. apply lookup_app_Some in Hh as [Hh | [Hge Hh]].
    + pose proof (Hobj h c Hh) as Hcached.
      rewrite lookup_insert_ne; [done |]. intros Heq.
      rewrite <- Heq in Hcached. congruence.
    + destruct (h - length (objects st)) as [| k] eqn:Hk; [| by destruct k].
      injection Hh as <-. simpl.
      rewrite lookup_insert_eq. f_equal. lia.
  - by rewrite lookup_insert_ne.
  - rewrite length_app, map_size_insert_None by done. simpl. lia.
Qed.

Lemma run_lookups_wf calls : ∀ st, cache_wf st → cache_wf (run_lookups calls st).
Proof.
  induction calls as [| call calls IH]; intros st Hwf; [done |].
  unfold run_lookups. simpl. apply IH. by apply useContract_wf.
Qed.

Lemma useContract_result_cached address a signer conn st h :
  (useContract address a signer conn st).1 = Some h →
  ∃ addr, address = Some addr ∧ addr ≠ ""
          ∧ contractsCache (useContract address a signer conn st).2 !! addr
            = Some h.
Proof.
  unfold useContract.
  destruct (negb (truthy address) || _) eqn:Hguard; [done |].
  destruct address as [addr |]; [| done].
  assert (Hne : addr ≠ "").
  { apply orb_false_iff in Hguard as [Ht _]. apply negb_false_iff in Ht.
    simpl in Ht. by apply bool_decide_eq_true in Ht. }
  destruct (ethersProvider conn) as [p |]; [| done].
  destruct (contractsCache st !! addr) as [h' |] eqn:Hc; simpl.
  - intros [= <-]. by exists addr.
  - intros [= <-]. exists addr. split; [done |]. split; [done |].
    apply lookup_insert_eq.
Qed.

(** C3: in a cache built by lookups, with a usable address and a
    connection, a call returns a handle under which the address is cached
    and which names a constructed contract object of that address (the
    object this call constructs from its own arguments when the address was
    not cached yet); a later call with the same address returns the same
    handle and leaves the cache as it is, whatever interface descriptor,
    mode and connection the later call passes and whatever calls were made
    in between; the address is still cached under the handle and the handle
    still names the same object. *)
Theorem useContract_idempotent
    (address : option string) (a1 a2 : abi) (s1 s2 : option bool)
    (conn1 conn2 : web3) (before between : list lookup_call) :
  truthy address = true →
  is_Some (ethersProvider conn1) →
  is_Some (ethersProvider conn2) →
  let st := run_lookups before empty_cache in
  let first := useContract address a1 s1 conn1 st in
  let st' := run_lookups between first.2 in
  ∃ addr h c,
    address = Some addr
    ∧ first.1 = Some h
    ∧ contractsCache first.2 !! addr = Some h
    ∧ objects first.2 !! h = Some c
    ∧ contract_address c = addr
    ∧ (∀ p1, ethersProvider conn1 = Some p1 →
             contractsCache st !! addr = None →
             c = Contract addr a1
                   (if default true s1 then SignerOf p1 else ReadOnly p1))
    ∧ useContract address a2 s2 conn2 st' = (Some h, st')
    ∧ contractsCache st' !! addr = Some h
    ∧ objects st' !! h = Some c.
Proof.
  intros Ht Hp1 Hp2 st first st'.
  destruct address as [addr |]; [| done].
  assert (Hne : addr ≠ "") by (simpl in Ht; by apply bool_decide_eq_true in Ht).
  assert (Hwf : cache_wf first.2).
  { apply useContract_wf, run_lookups_wf, cache_wf_empty. }
  assert (∃ h, first.1 = Some h ∧ contractsCache first.2 !! addr = Some h)
    as (h & Hfirst & Hc).
  { subst first. destruct Hp1 as [p Hp].
    destruct (contractsCache st !! addr) as [h |] eqn:Hc.
    - exists h. rewrite (useContract_cached addr a1 s1 conn1 st h) by eauto. done.
    - exists (length (objects st)).
      rewrite (useContract_fresh addr a1 s1 conn1 p st) by done. simpl.
      split; [done |]. apply lookup_insert_eq. }
  destruct Hwf as (Hkey & _).
  destruct (Hkey addr h Hc) as (c & Hobj & Haddr).
  destruct (run_lookups_preserves between first.2 addr h Hc) as [Hc' Ho].
  exists addr, h, c.
  split; [done |]. split; [done |]. split; [done |]. split; [done |].
  split; [done |]. split.
  - intros p1 Hp Hfresh. subst first.
    rewrite (useContract_fresh addr a1 s1 conn1 p1 st) in Hfirst, Hobj by done.
    simpl in Hfirst, Hobj. injection Hfirst as <-.
    rewrite lookup_app_r in Hobj by lia. rewrite Nat.sub_diag in Hobj.
    simpl in Hobj. by injection Hobj as <-.
  - split; [by apply useContract_cached |]. split; [done |]. by apply Ho.
Qed.

Lemma useContract_idempotent_witness :
  ∃ c,
    (useContract (Some "0xA") (Abi ["balanceOf"]) (Some true)
       (Web3 None (Some (Provider 0))) empty_cache).1 = Some 0
    ∧ objects
        (useContract (Some "0xA") (Abi ["balanceOf"]) (Some true)
           (Web3 None (Some (Provider 0))) empty_cache).2 !! 0 = Some c
    ∧ c = Contract "0xA" (Abi ["balanceOf"]) (SignerOf (Provider 0))
    ∧ useContract (Some "0xA") (Abi ["transfer"]) (Some false)
        (Web3 None (Some (Provider 1)))
        (run_lookups [LookupCall (Some "0xB") (Abi []) None
                        (Web3 None (Some (Provider 0)))]
           (useContract (Some "0xA") (Abi ["balanceOf"]) (Some true)
              (Web3 None (Some (Provider 0))) empty_cache).2)
      = (Some 0,
         run_lookups [LookupCall (Some "0xB") (Abi []) None
                        (Web3 None (Some (Provider 0)))]
           (useContract (Some "0xA") (Abi ["balanceOf"]) (Some true)
              (Web3 None (Some (Provider 0))) empty_cache).2).
Proof.
  destruct (useContract_idempotent (Some "0xA") (Abi ["balanceOf"])
              (Abi ["transfer"]) (Some true) (Some false)
              (Web3 None (Some (Provider 0))) (Web3 None (Some (Provider 1)))
              []
              [LookupCall (Some "0xB") (Abi []) None
                 (Web3 None (Some (Provider 0)))])
    as (addr & h & c & Haddr & Hh & _ & Hobj & _ & Hfresh & Hsecond & _).
  - reflexivity.
  - simpl. eauto.
  - simpl. eauto.
  - assert (Hh0 : h = 0) by (by injection Hh as <-). subst h.
    injection Haddr as <-.
    exists c. split; [reflexivity |]. split; [exact Hobj |].
    split; [| exact Hsecond].
    apply (Hfresh (Provider 0)); reflexivity.
Defined.

(** ** Balance tracker *)

Lemma no_target_spec d :
  no_target d = true ↔
  (truthy (dep_account d) = false ∧ dep_address d = "")
  ∨ dep_tokenContract d = None.
Proof.
  unfold no_target. rewrite orb_true_iff, andb_true_iff, !negb_true_iff.
  simpl. rewrite !bool_decide_eq_false. split.
  - intros [[Ha Hd] | Hc].
    + left. split; [done |]. by destruct (decide (dep_address d = "")).
    + right. destruct (dep_tokenContract d); [| done]. destruct Hc. eauto.
  - intros [[Ha Hd] | Hc].
    + left. split; [done |]. intros Hne. by apply Hne.
    + right. rewrite Hc. by intros [? ?].
Qed.

Lemma tracker_wf_init : tracker_wf tracker_init.
Proof. intros i f Hi. destruct i; discriminate. Qed.

(** Once [updateBalance] has called the stored canceller, every earlier
    fetch is cancelled. *)
Lemma cancel_current_all t i f :
  tracker_wf t →
  match cancelBalanceUpdate t with
  | Some j => alter mark_cancelled j (fetches t)
  | None => fetches t
  end !! i = Some f →
  fetch_cancelled f = true.
Proof.
  intros Hwf. destruct (cancelBalanceUpdate t) as [j |] eqn:Hcur.
  - destruct (decide (j = i)) as [-> | Hne].
    + rewrite list_lookup_alter_eq.
      destruct (fetches t !! i); simpl; [| done]. by intros [= <-].
    + rewrite list_lookup_alter_ne by done. intros Hi.
      apply (Hwf i f Hi). rewrite Hcur. congruence.
  - intros Hi. apply (Hwf i f Hi). by rewrite Hcur.
Qed.

Lemma updateBalance_length d t :
  length (fetches (updateBalance d t)) =
    if no_target d then length (fetches t) else S (length (fetches t)).
Proof.
  unfold updateBalance.
  destruct (no_target d); simpl;
    destruct (cancelBalanceUpdate t); simpl;
    rewrite ?length_app, ?length_alter; simpl; lia.
Qed.

Lemma updateBalance_wf d t : tracker_wf t → tracker_wf (updateBalance d t).
Proof.
  intros Hwf i f. unfold updateBalance.
  destruct (no_target d); simpl.
  - intros Hi _. by apply (cancel_current_all t i f).
  - intros Hi Hne. apply lookup_app_Some in Hi as [Hi | [Hge Hi]].
    + by apply (cancel_current_all t i f).
    + destruct (i - _) as [| k] eqn:Hk; [| by destruct k].
      exfalso. apply Hne. f_equal. lia.
Qed.

(** A fetch started past the guard is the one the ref points to, it is
    neither cancelled nor settled, and the balance is left as it was. *)
Lemma updateBalance_starts d t :
  no_target d = false →
  let t' := updateBalance d t in
  cancelBalanceUpdate t' = Some (length (fetches t))
  ∧ balance t' = balance t
  ∧ ∃ target, fetches t' !! length (fetches t) = Some (Fetch target false false).
Proof.
  intros Hd. unfold updateBalance. rewrite Hd. simpl.
  assert (Hlen :
    length (match cancelBalanceUpdate t with
            | Some i => alter mark_cancelled i (fetches t)
            | None => fetches t
            end) = length (fetches t)).
  { destruct (cancelBalanceUpdate t); [apply length_alter | done]. }
  rewrite Hlen. split; [done |]. split; [done |].
  eexists. rewrite lookup_app_r by lia. rewrite Hlen, Nat.sub_diag. reflexivity.
Qed.

Lemma settle_outside_step t e :
  tracker_wf t →
  settles_outside (cancelBalanceUpdate t) e →
  let t' := tracker_step t e in
  balance t' = balance t
  ∧ cancelBalanceUpdate t' = cancelBalanceUpdate t
  ∧ tracker_wf t'
  ∧ ∀ i, cancelBalanceUpdate t = Some i → fetches t' !! i = fetches t !! i.
Proof.
  intros Hwf He.
  destruct e as [d | j v | j | d from to v]; simpl in *; try done.
  - unfold balanceResolved.
    destruct (fetches t !! j) as [f |] eqn:Hj; [| done].
    destruct (fetch_settled f); [done |]. simpl.
    rewrite (Hwf j f Hj He).
    split; [done |]. split; [done |]. split.
    + intros i g Hi Hne. simpl in *.
      destruct (decide (j = i)) as [-> | Hji].
      * rewrite list_lookup_insert_eq in Hi by (by eapply lookup_lt_Some).
        injection Hi as <-. simpl. by apply (Hwf i f).
      * rewrite list_lookup_insert_ne in Hi by done. by apply (Hwf i g).
    + intros i Hi. apply list_lookup_insert_ne. congruence.
  - unfold balanceRejected.
    destruct (fetches t !! j) as [f |] eqn:Hj; [| done].
    destruct (fetch_settled f); [done |]. simpl.
    split; [done |]. split; [done |]. split.
    + intros i g Hi Hne. simpl in *.
      destruct (decide (j = i)) as [-> | Hji].
      * rewrite list_lookup_insert_eq in Hi by (by eapply lookup_lt_Some).
        injection Hi as <-. simpl. by apply (Hwf i f).
      * rewrite list_lookup_insert_ne in Hi by done. by apply (Hwf i g).
    + intros i Hi. apply list_lookup_insert_ne. congruence.
Qed.

Lemma settle_outside_run es : ∀ t,
  tracker_wf t →
  Forall (settles_outside (cancelBalanceUpdate t)) es →
  let t' := tracker_run es t in
  balance t' = balance t
  ∧ cancelBalanceUpdate t' = cancelBalanceUpdate t
  ∧ tracker_wf t'
  ∧ ∀ i, cancelBalanceUpdate t = Some i → fetches t' !! i = fetches t !! i.
Proof.
  induction es as [| e es IH]; intros t Hwf Hes; [done |].
  apply Forall_cons in Hes as [He Hes].
  destruct (settle_outside_step t e Hwf He) as (Hb & Hc & Hwf' & Hf).
  simpl. destruct (IH (tracker_step t e) Hwf') as (Hb' & Hc' & Hwf'' & Hf').
  { by rewrite Hc. }
  split; [congruence |]. split; [congruence |]. split; [done |].
  intros i Hi. rewrite Hf' by congruence. by apply Hf.
Qed.

Lemma tracker_step_wf t e : tracker_wf t → tracker_wf (tracker_step t e).
Proof.
  intros Hwf. destruct e as [d | j v | j | d from to v]; simpl.
  - by apply updateBalance_wf.
  - destruct (decide (cancelBalanceUpdate t = Some j)) as [Hcur | Hcur].
    + unfold balanceResolved.
      destruct (fetches t !! j) as [f |] eqn:Hj; [| done].
      destruct (fetch_settled f); [done |].
      intros i g Hi Hne. simpl in *.
      rewrite list_lookup_insert_ne in Hi by congruence. by apply (Hwf i g).
    + by apply (settle_outside_step t (BalanceResolved j v)).
  - destruct (decide (cancelBalanceUpdate t = Some j)) as [Hcur | Hcur].
    + unfold balanceRejected.
      destruct (fetches t !! j) as [f |] eqn:Hj; [| done].
      destruct (fetch_settled f); [done |].
      intros i g Hi Hne. simpl in *.
      rewrite list_lookup_insert_ne in Hi by congruence. by apply (Hwf i g).
    + by apply (settle_outside_step t (BalanceRejected j)).
  - unfold transferEvent, onTransfer.
    destruct (subscribes d); [| done].
    destruct (_ || _); [by apply updateBalance_wf | done].
Qed.

Lemma tracker_run_wf es : ∀ t, tracker_wf t → tracker_wf (tracker_run es t).
Proof.
  induction es as [| e es IH]; intros t Hwf; [done |].
  simpl. by apply IH, tracker_step_wf.
Qed.

Lemma tracker_reachable_wf t : tracker_reachable t → tracker_wf t.
Proof. intros [es ->]. apply tracker_run_wf, tracker_wf_init. Qed.

(** The resolution of the fetch the ref points to sets the balance. *)
Lemma current_fetch_resolves t i target v :
  fetches t !! i = Some (Fetch target false false) →
  let t' := balanceResolved i v t in
  balance t' = v ∧ cancelBalanceUpdate t' = cancelBalanceUpdate t.
Proof. intros Hi. unfold balanceResolved. rewrite Hi. done. Qed.

(** C2: fetch A starts, fetch B starts before A resolves, B resolves to
    [vb] and A resolves later to [va]: the balance ends as [vb]. Promises of
    other (older) fetches may settle at any point in between and after. *)
Theorem superseded_fetch_never_overwrites
    (t0 : tracker) (dA dB : deps) (va vb : Z)
    (mid after_b after_a : list tracker_event) :
  tracker_reachable t0 →
  no_target dA = false →
  no_target dB = false →
  let idA := length (fetches t0) in
  let idB := S idA in
  Forall (settles_outside (Some idB)) mid →
  Forall (settles_outside (Some idB)) after_b →
  Forall (settles_outside (Some idB)) after_a →
  balance
    (tracker_run
       (Refresh dA :: Refresh dB :: mid ++ BalanceResolved idB vb :: after_b
          ++ BalanceResolved idA va :: after_a) t0) = vb.
Proof.
  intros Hreach HdA HdB idA idB Hmid Hb Ha.
  apply tracker_reachable_wf in Hreach.
  simpl. unfold tracker_run. rewrite foldl_app. simpl.
  set (tA := updateBalance dA t0).
  set (tB := updateBalance dB tA).
  assert (HlenA : length (fetches tA) = idB).
  { subst tA. rewrite updateBalance_length, HdA. done. }
  destruct (updateBalance_starts dB tA HdB) as (Hcur & _ & target & Hfetch).
  fold tB in Hcur, Hfetch. rewrite HlenA in Hcur, Hfetch.
  assert (HwfB : tracker_wf tB) by (by apply updateBalance_wf, updateBalance_wf).
  destruct (settle_outside_run mid tB HwfB) as (_ & Hcur1 & Hwf1 & Hkeep1).
  { by rewrite Hcur. }
  fold (tracker_run mid tB). set (t1 := tracker_run mid tB) in *.
  assert (Hfetch1 : fetches t1 !! idB = Some (Fetch target false false)).
  { rewrite Hkeep1 by done. done. }
  destruct (current_fetch_resolves t1 idB target vb Hfetch1) as [Hbal2 Hcur2].
  set (t2 := balanceResolved idB vb t1) in *.
  assert (Hwf2 : tracker_wf t2).
  { apply (tracker_step_wf t1 (BalanceResolved idB vb) Hwf1). }
  assert (Hlate : Forall (settles_outside (cancelBalanceUpdate t2))
                    (after_b ++ BalanceResolved idA va :: after_a)).
  { rewrite Hcur2, Hcur1, Hcur. apply Forall_app. split; [done |].
    apply Forall_cons. split; [| done]. simpl. intros [= Heq]. lia. }
  destruct (settle_outside_run _ t2 Hwf2 Hlate) as (Hbal3 & _).
  unfold tracker_run in Hbal3. rewrite Hbal3. exact Hbal2.
Qed.

Lemma superseded_fetch_never_overwrites_witness :
  balance
    (tracker_run
       [Refresh (Deps (Some "0xA") "" (Some 0));
        Refresh (Deps (Some "0xA") "" (Some 0));
        BalanceResolved 1 7; BalanceResolved 0 5] tracker_init) = 7%Z.
Proof.
  apply (superseded_fetch_never_overwrites tracker_init
           (Deps (Some "0xA") "" (Some 0)) (Deps (Some "0xA") "" (Some 0))
           5 7 [] [] []).
  - exists []. reflexivity.
  - reflexivity.
  - reflexivity.
  - constructor.
  - constructor.
  - constructor.
Defined.

(** C8: when neither the account nor the address is usable, or there is no
    token contract, a refresh sets the balance to -1 and clears the ref,
    whatever the state before; and in a state the tracker can be in, the
    balance stays -1 while promises of earlier fetches settle. *)
Theorem refresh_without_target_settles_sentinel
    (t : tracker) (d : deps) (later : list tracker_event) :
  (truthy (dep_account d) = false ∧ dep_address d = "")
  ∨ dep_tokenContract d = None →
  balance (updateBalance d t) = (-1)%Z
  ∧ cancelBalanceUpdate (updateBalance d t) = None
  ∧ (tracker_reachable t →
     Forall (settles_outside None) later →
     balance (tracker_run (Refresh d :: later) t) = (-1)%Z).
Proof.
  intros Hd. apply no_target_spec in Hd.
  assert (Hnow : balance (updateBalance d t) = (-1)%Z
                 ∧ cancelBalanceUpdate (updateBalance d t) = None).
  { unfold updateBalance. rewrite Hd. done. }
  destruct Hnow as [Hbal Hcur]. split; [done |]. split; [done |].
  intros Hreach Hlater. apply tracker_reachable_wf in Hreach.
  destruct (settle_outside_run later (updateBalance d t)) as (Hbal' & _).
  - by apply updateBalance_wf.
  - by rewrite Hcur.
  - change (tracker_run (Refresh d :: later) t)
      with (tracker_run later (updateBalance d t)).
    by rewrite Hbal'.
Qed.

Lemma refresh_without_target_settles_sentinel_witness :
  balance
    (tracker_run
       [Refresh (Deps (Some "0xA") "" (Some 0)); BalanceResolved 0 42;
        Refresh (Deps (Some "0xA") "" (Some 0));
        Refresh (Deps None "" (Some 0)); BalanceResolved 1 9]
       tracker_init) = (-1)%Z.
Proof.
  apply (refresh_without_target_settles_sentinel
           (tracker_run
              [Refresh (Deps (Some "0xA") "" (Some 0)); BalanceResolved 0 42;
               Refresh (Deps (Some "0xA") "" (Some 0))] tracker_init)
           (Deps None "" (Some 0)) [BalanceResolved 1 9]).
  - left. split; reflexivity.
  - eexists. reflexivity.
  - repeat constructor. discriminate.
Defined.

Lemma onTransfer_guard d from to :
  strict_eq from (dep_account d) || strict_eq to (dep_account d)
  || bool_decide (from = dep_address d) || bool_decide (to = dep_address d)
  = true ↔ tracked d from to.
Proof.
  unfold tracked, strict_eq.
  rewrite !orb_true_iff, !bool_decide_eq_true. tauto.
Qed.

(** C9: a Transfer event whose sender and receiver are neither the tracked
    account nor the tracked address leaves the tracker as it is; one that
    names the account or the address runs [updateBalance]; and while the
    listener is registered, an event issues a new balance query exactly
    when it names the account or the address. *)
Theorem transfer_refreshes_iff_tracked
    (d : deps) (from to : string) (value : Z) (t : tracker) :
  (¬ tracked d from to → onTransfer d from to value t = t)
  ∧ (tracked d from to → onTransfer d from to value t = updateBalance d t)
  ∧ (subscribes d = true →
     (length (fetches (transferEvent d from to value t))
        = S (length (fetches t)) ↔ tracked d from to)
     ∧ (¬ tracked d from to → transferEvent d from to value t = t)).
Proof.
  pose proof (onTransfer_guard d from to) as Hguard.
  unfold transferEvent, onTransfer.
  destruct (_ || _) eqn:Hg.
  - assert (Ht : tracked d from to) by (by apply Hguard).
    split; [done |]. split; [done |].
    intros Hsub. rewrite Hsub. split; [| done].
    rewrite updateBalance_length.
    unfold subscribes in Hsub. apply negb_true_iff in Hsub. rewrite Hsub.
    done.
  - assert (Ht : ¬ tracked d from to).
    { intros Ht. apply Hguard in Ht. congruence. }
    split; [done |]. split; [done |].
    intros Hsub. rewrite Hsub. split; [| done].
    split; [lia | done].
Qed.

Lemma transfer_refreshes_iff_tracked_witness :
  onTransfer (Deps (Some "0xA") "" (Some 0)) "0xB" "0xC" 10 tracker_init
    = tracker_init
  ∧ onTransfer (Deps (Some "0xA") "" (Some 0)) "0xB" "0xA" 10 tracker_init
    = updateBalance (Deps (Some "0xA") "" (Some 0)) tracker_init
  ∧ length (fetches (transferEvent (Deps (Some "0xA") "" (Some 0))
                       "0xA" "0xC" 10 tracker_init)) = 1.
Proof.
  destruct (transfer_refreshes_iff_tracked
              (Deps (Some "0xA") "" (Some 0)) "0xB" "0xC" 10 tracker_init)
    as (Huntracked & _).
  destruct (transfer_refreshes_iff_tracked
              (Deps (Some "0xA") "" (Some 0)) "0xB" "0xA" 10 tracker_init)
    as (_ & Htracked & _).
  destruct (transfer_refreshes_iff_tracked
              (Deps (Some "0xA") "" (Some 0)) "0xA" "0xC" 10 tracker_init)
    as (_ & _ & Hsubscribed).
  split; [| split].
  - apply Huntracked. unfold tracked. simpl.
    intros H. destruct H as [H | [H | [H | H]]]; discriminate.
  - apply Htracked. unfold tracked. simpl. tauto.
  - apply Hsubscribed; [reflexivity |]. unfold tracked. simpl. tauto.
Defined.

(** ** Price oracle *)








(** Two failures, then a success: [loading] is set in both retry delays
    and the final price is the value of the success. *)
Lemma price_retry_scenario :
  oracle_run ready_inputs
    [SupplySettled (Failed "timeout"); TimerFired;
     SupplySettled (Resolved 900%Z); PriceSettled (Failed "revert")]
    (priceEffect ready_inputs false (-1))
  = Some (Quote true (-1) false (Some 1000%Z) RetryDelay
            [TotalSupply 0; TotalSupply 0;
             CalculatePurchaseReturn 1 900%Z 5000%Z (Some 33333%Z) 100%Z])
  ∧ oracle_run ready_inputs
      [SupplySettled (Failed "timeout"); TimerFired;
       SupplySettled (Resolved 900%Z); PriceSettled (Failed "revert");
       TimerFired; SupplySettled (Resolved 901%Z); PriceSettled (Resolved 42%Z)]
      (priceEffect ready_inputs false (-1))
    = Some (Quote false 42%Z false None Finished
              [TotalSupply 0; TotalSupply 0;
               CalculatePurchaseReturn 1 900%Z 5000%Z (Some 33333%Z) 100%Z;
               TotalSupply 0;
               CalculatePurchaseReturn 1 901%Z 5000%Z (Some 33333%Z) 100%Z]).
Proof. split; reflexivity. Qed.








(** ** Transactions *)

Lemma submitted_query log r :
  (∀ tx, r ≠ Submit tx) → submitted (log ++ [r]) = submitted log.
Proof.
  intros Hr. unfold submitted. rewrite omap_app. simpl.
  destruct r; try (by rewrite app_nil_r). by destruct (Hr tx).
Qed.

(** C4, as stated, fails on the code.
    With the token contract there and no market maker in the registry, so
    that no handle of the spender can be had, the callback does not return
    [false]: it queries the allowance of an [undefined] spender and
    submits the approval for it. *)
Lemma allowance_without_spender_counterexample :
  (token_only_known "MARKET_MAKER").1 = None
  ∧ (useKnownContract token_only_known "MARKET_MAKER" None sample_conn
       empty_cache).1 = None
  ∧ (useAllowance token_only_known sample_chain sample_conn empty_cache).1
      25%Z []
    = (Returned (JsResponse (TxResponse "0xsent")),
       [QueryAllowance 0 (Some "0xUSER") None;
        Submit (Approve 0 None 25)])
  ∧ ¬ (∀ known w conn st amount log,
         (useKnownContract known "MARKET_MAKER" None conn st).1 = None →
         (useAllowance known w conn st).1 amount log = (Returned JsFalse, log)).
Proof.
  split; [reflexivity |]. split; [reflexivity |]. split; [reflexivity |].
  intros Hclaim.
  specialize (Hclaim token_only_known sample_chain sample_conn empty_cache
                25%Z [] eq_refl).
  discriminate Hclaim.
Qed.

(** C4 (amended): the handle the allowance callback checks is the one of
    the ANT token contract, on which it calls [allowance] and [approve];
    the spender is the address of the market maker and is not checked.
    Without the token contract handle the callback returns [false] and
    sends nothing. With a handle [c] and the allowance query resolving to
    [a]: if [a < amount] it submits [approve(marketMaker, amount)] and
    returns what that submission gives; if [a >= amount] it submits nothing
    and returns [undefined]. *)
Theorem useAllowance_flow
    (known : known_contracts) (w : chain) (conn : web3) (st : cache)
    (amount : Z) (log : list request) :
  let antContract := (useKnownContract known "TOKEN_ANT" None conn st).1 in
  let spender := (known "MARKET_MAKER").1 in
  let run := (useAllowance known w conn st).1 amount log in
  (antContract = None → run = (Returned JsFalse, log))
  ∧ (∀ c a,
       antContract = Some c →
       allowance_of w c (account conn) spender = Resolved a →
       ((a < amount)%Z →
        run = (submission_result (send w (Approve c spender amount)),
               log ++ [QueryAllowance c (account conn) spender;
                       Submit (Approve c spender amount)]))
       ∧ ((amount ≤ a)%Z →
          run = (Returned JsUndefined,
                 log ++ [QueryAllowance c (account conn) spender])
          ∧ submitted run.2 = submitted log)).
Proof.
  intros antContract spender run. subst antContract spender run.
  unfold useAllowance.
  destruct (useKnownContract known "TOKEN_ANT" None conn st) as [ant st'].
  destruct (known "MARKET_MAKER") as [mm mmAbi]. simpl.
  split.
  - intros ->. reflexivity.
  - intros c a -> Ha.
    unfold ensureAllowance, mbind, async_bind, await. rewrite Ha.
    split.
    + intros Hlt. apply Z.ltb_lt in Hlt. rewrite Hlt.
      destruct (send w (Approve c mm amount)); simpl;
        by rewrite <- app_assoc.
    + intros Hge. apply Z.ltb_ge in Hge. rewrite Hge. simpl.
      split; [done |]. by apply submitted_query.
Qed.

Lemma useAllowance_flow_witness :
  (useAllowance sample_known sample_chain sample_conn empty_cache).1 25%Z []
  = (Returned (JsResponse (TxResponse "0xsent")),
     [QueryAllowance 0 (Some "0xUSER") (Some "0xMM");
      Submit (Approve 0 (Some "0xMM") 25)])
  ∧ (useAllowance sample_known sample_chain sample_conn empty_cache).1 10%Z []
    = (Returned JsUndefined, [QueryAllowance 0 (Some "0xUSER") (Some "0xMM")])
  ∧ (useAllowance empty_known sample_chain sample_conn empty_cache).1 25%Z []
    = (Returned JsFalse, []).
Proof.
  destruct (useAllowance_flow sample_known sample_chain sample_conn
              empty_cache 25 []) as [_ Hshort].
  destruct (Hshort 0 10%Z) as [Hlt _]; [reflexivity | reflexivity |].
  destruct (useAllowance_flow sample_known sample_chain sample_conn
              empty_cache 10 []) as [_ Henough].
  destruct (Henough 0 10%Z) as [_ Hge]; [reflexivity | reflexivity |].
  destruct (useAllowance_flow empty_known sample_chain sample_conn
              empty_cache 25 []) as [Hnone _].
  split; [| split].
  - apply Hlt. lia.
  - apply Hge. lia.
  - apply Hnone. reflexivity.
Defined.

(** C6: without the fundraising contract handle [openOrder] returns
    [false] and sends nothing. With a handle [c] it submits one
    transaction on the fixed token address and returns what the submission
    gives: [openBuyOrder] with gas limit 650000 and value 0 when [toAnj] is
    true or omitted, [openSellOrder] with gas limit 850000 and no value
    when it is false. *)
Theorem useOpenOrder_flow
    (known : known_contracts) (w : chain) (conn : web3) (st : cache)
    (amount : Z) (toAnj : option bool) (log : list request) :
  let fundraisingContract :=
    (useKnownContract known "FUNDRAISING" None conn st).1 in
  let antAddress := (known "TOKEN_ANT").1 in
  let run := (useOpenOrder known w conn st).1 amount toAnj log in
  (fundraisingContract = None → run = (Returned JsFalse, log))
  ∧ (∀ c, fundraisingContract = Some c →
       (toAnj ≠ Some false →
        run = (submission_result
                 (send w (OpenBuyOrder c antAddress amount
                            (Overrides 650000 (Some 0%Z)))),
               log ++ [Submit (OpenBuyOrder c antAddress amount
                                 (Overrides 650000 (Some 0%Z)))]))
       ∧ (toAnj = Some false →
          run = (submission_result
                   (send w (OpenSellOrder c antAddress amount
                              (Overrides 850000 None))),
                 log ++ [Submit (OpenSellOrder c antAddress amount
                                   (Overrides 850000 None))]))).
Proof.
  intros fundraisingContract antAddress run.
  subst fundraisingContract antAddress run. unfold useOpenOrder.
  destruct (useKnownContract known "FUNDRAISING" None conn st) as [fc st'].
  destruct (known "TOKEN_ANT") as [ant antAbi]. simpl.
  split.
  - intros ->. reflexivity.
  - intros c ->. unfold openOrder, mbind, async_bind, await. split.
    + intros Hbuy.
      assert (default true toAnj = true) as ->.
      { destruct toAnj as [[] |]; simpl; congruence. }
      by destruct (send w _).
    + intros ->. simpl. by destruct (send w _).
Qed.

Lemma useOpenOrder_flow_witness :
  (useOpenOrder sample_known sample_chain sample_conn empty_cache).1
    70%Z None []
  = (Returned (JsResponse (TxResponse "0xsent")),
     [Submit (OpenBuyOrder 0 (Some "0xANT") 70 (Overrides 650000 (Some 0%Z)))])
  ∧ (useOpenOrder sample_known sample_chain sample_conn empty_cache).1
      70%Z (Some false) []
    = (Returned (JsResponse (TxResponse "0xsent")),
       [Submit (OpenSellOrder 0 (Some "0xANT") 70 (Overrides 850000 None))])
  ∧ (useOpenOrder empty_known sample_chain sample_conn empty_cache).1
      70%Z None []
    = (Returned JsFalse, []).
Proof.
  destruct (useOpenOrder_flow sample_known sample_chain sample_conn
              empty_cache 70 None []) as [_ Hbuy].
  destruct (useOpenOrder_flow sample_known sample_chain sample_conn
              empty_cache 70 (Some false) []) as [_ Hsell].
  destruct (useOpenOrder_flow empty_known sample_chain sample_conn
              empty_cache 70 None []) as [Hnone _].
  split; [| split].
  - apply (Hbuy 0); [reflexivity | discriminate].
  - apply (Hsell 0); reflexivity.
  - apply Hnone. reflexivity.
Defined.

(** C5: with a provider and the fundraising contract handle [c], when the
    transaction of the given hash resolves to one in block [B], the claim
    submits exactly one transaction after the lookup and returns what the
    submission gives: [claimBuyOrder(account, B, token)] when [toAnj] is
    true or omitted, [claimSellOrder(account, B, token)] when it is false,
    both with gas limit 500000 and no value. *)
Theorem useClaimOrder_batch
    (known : known_contracts) (w : chain) (conn : web3) (st : cache)
    (openOrderTransactionHash : string) (toAnj : option bool)
    (log : list request) (p : provider) (c : nat) (t : transaction) (B : Z) :
  ethersProvider conn = Some p →
  (useKnownContract known "FUNDRAISING" None conn st).1 = Some c →
  transaction_of w p openOrderTransactionHash = Resolved (Some t) →
  blockNumber t = Some B →
  let antAddress := (known "TOKEN_ANT").1 in
  let run :=
    (useClaimOrder known w conn st).1 openOrderTransactionHash toAnj log in
  let claim :=
    if default true toAnj
    then ClaimBuyOrder c (account conn) (Some B) antAddress
           (Overrides 500000 None)
    else ClaimSellOrder c (account conn) (Some B) antAddress
           (Overrides 500000 None) in
  run = (submission_result (send w claim),
         log ++ [QueryTransaction p openOrderTransactionHash; Submit claim]).
Proof.
  intros Hp Hc Ht HB antAddress run claim. subst antAddress run claim.
  unfold useClaimOrder.
  destruct (useKnownContract known "FUNDRAISING" None conn st) as [fc st'].
  destruct (known "TOKEN_ANT") as [ant antAbi]. simpl in *. subst fc.
  unfold claimOrder, mbind, async_bind, await. rewrite Hp, Ht, HB.
  destruct (default true toAnj); destruct (send w _); simpl;
    by rewrite <- app_assoc.
Qed.

Lemma useClaimOrder_batch_witness :
  (useClaimOrder sample_known sample_chain sample_conn empty_cache).1
    "0xopen" None []
  = (Returned (JsResponse (TxResponse "0xsent")),
     [QueryTransaction (Provider 0) "0xopen";
      Submit (ClaimBuyOrder 0 (Some "0xUSER") (Some 1234%Z) (Some "0xANT")
                (Overrides 500000 None))])
  ∧ (useClaimOrder sample_known sample_chain sample_conn empty_cache).1
      "0xopen" (Some false) []
    = (Returned (JsResponse (TxResponse "0xsent")),
       [QueryTransaction (Provider 0) "0xopen";
        Submit (ClaimSellOrder 0 (Some "0xUSER") (Some 1234%Z) (Some "0xANT")
                  (Overrides 500000 None))]).
Proof.
  split.
  - apply (useClaimOrder_batch sample_known sample_chain sample_conn
             empty_cache "0xopen" None [] (Provider 0) 0
             (Transaction "0xopen" (Some 1234%Z)) 1234); reflexivity.
  - apply (useClaimOrder_batch sample_known sample_chain sample_conn
             empty_cache "0xopen" (Some false) [] (Provider 0) 0
             (Transaction "0xopen" (Some 1234%Z)) 1234); reflexivity.
Defined.

(** C10, as stated, fails on the code.
    With a provider but no fundraising contract, a claim whose transaction
    lookup is rejected ends with that rejection: the missing handle is
    never reached, so the failure is not a dereference of it. *)
Lemma claimOrder_failure_source_counterexample :
  ethersProvider sample_conn = Some (Provider 0)
  ∧ (useKnownContract empty_known "FUNDRAISING" None sample_conn
       empty_cache).1 = None
  ∧ (useClaimOrder empty_known failing_chain sample_conn empty_cache).1
      "0xopen" None []
    = (Thrown (Rejection "network error"),
       [QueryTransaction (Provider 0) "0xopen"])
  ∧ ¬ (∀ known w conn st hash toAnj log,
         ethersProvider conn = None
         ∨ (useKnownContract known "FUNDRAISING" None conn st).1 = None →
         ∃ property,
           ((useClaimOrder known w conn st).1 hash toAnj log).1
           = Thrown (TypeErrorOn property)).
Proof.
  split; [reflexivity |]. split; [reflexivity |]. split; [reflexivity |].
  intros Hclaim.
  destruct (Hclaim empty_known failing_chain sample_conn empty_cache
              "0xopen" None []) as [property Hthrown].
  - right. reflexivity.
  - discriminate Hthrown.
Qed.

(** C10 (amended): [claimOrder] checks nothing before use. Called while
    the provider or the fundraising contract handle is missing, it never
    returns a value (so never [false]) and submits no transaction: it ends
    with an exception. Without a provider that is the [TypeError] of
    reading [getTransaction] on it, before any request. With a provider
    but no contract handle the lookup is made first: if it resolves to a
    transaction, the exception is the [TypeError] of reading the claim
    method on the missing handle; if it resolves to no transaction or is
    rejected, the exception is that of the lookup. *)
Theorem useClaimOrder_no_fail_closed
    (known : known_contracts) (w : chain) (conn : web3) (st : cache)
    (openOrderTransactionHash : string) (toAnj : option bool)
    (log : list request) :
  ethersProvider conn = None
  ∨ (useKnownContract known "FUNDRAISING" None conn st).1 = None →
  let run :=
    (useClaimOrder known w conn st).1 openOrderTransactionHash toAnj log in
  (∃ e, run.1 = Thrown e)
  ∧ submitted run.2 = submitted log
  ∧ (ethersProvider conn = None →
     run = (Thrown (TypeErrorOn "getTransaction"), log))
  ∧ (∀ p, ethersProvider conn = Some p →
       run = (match transaction_of w p openOrderTransactionHash with
              | Resolved (Some _) =>
                  Thrown (TypeErrorOn (if default true toAnj
                                       then "claimBuyOrder"
                                       else "claimSellOrder"))
              | Resolved None => Thrown (TypeErrorOn "blockNumber")
              | Failed reason => Thrown (Rejection reason)
              end,
              log ++ [QueryTransaction p openOrderTransactionHash])).
Proof.
  intros Hmissing run. subst run. unfold useClaimOrder.
  assert (Hfc : ethersProvider conn = None
                ∨ ∃ p, ethersProvider conn = Some p
                       ∧ (useKnownContract known "FUNDRAISING" None conn st).1
                         = None).
  { destruct (ethersProvider conn) as [p |] eqn:Hp; [| by left].
    right. exists p. split; [done |]. by destruct Hmissing. }
  clear Hmissing.
  destruct (useKnownContract known "FUNDRAISING" None conn st) as [fc st'].
  destruct (known "TOKEN_ANT") as [ant antAbi]. simpl in *.
  unfold claimOrder, async_throw, mbind, async_bind, await.
  destruct Hfc as [Hp | (p & Hp & ->)]; rewrite Hp.
  - split; [by eexists |]. split; [done |]. split; [done |]. by intros p.
  - assert (Hquery : submitted (log ++ [QueryTransaction p openOrderTransactionHash])
                     = submitted log) by (by apply submitted_query).
    destruct (transaction_of w p openOrderTransactionHash)
      as [[t |] | reason] eqn:Ht;
      simpl; try destruct (default true toAnj); simpl.
    all: split; [by eexists |].
    all: split; [done |].
    all: split; [done |].
    all: intros ? [= <-]; by rewrite Ht.
Qed.

Lemma useClaimOrder_no_fail_closed_witness :
  (useClaimOrder sample_known sample_chain (Web3 (Some "0xUSER") None)
     empty_cache).1 "0xopen" None []
  = (Thrown (TypeErrorOn "getTransaction"), [])
  ∧ (useClaimOrder empty_known sample_chain sample_conn empty_cache).1
      "0xopen" None []
    = (Thrown (TypeErrorOn "claimBuyOrder"),
       [QueryTransaction (Provider 0) "0xopen"]).
Proof.
  destruct (useClaimOrder_no_fail_closed sample_known sample_chain
              (Web3 (Some "0xUSER") None) empty_cache "0xopen" None [])
    as (_ & _ & Hprovider & _); [left; reflexivity |].
  destruct (useClaimOrder_no_fail_closed empty_known sample_chain
              sample_conn empty_cache "0xopen" None [])
    as (_ & _ & _ & Hhandle); [right; reflexivity |].
  split.
  - apply Hprovider. reflexivity.
  - apply (Hhandle (Provider 0)). reflexivity.
Defined.

(** * Further properties of the hooks *)

(** ** Contract handle cache *)

(** X1: while there is no provider, a lookup returns [null] for every
    address, also a cached one, and leaves the cache as it is; once a
    provider is back, whichever it is, the cached address gives the handle
    it had. *)
Theorem useContract_disconnected_keeps_cache
    (addr : string) (h : nat) (a a' : abi) (s s' : option bool)
    (acc acc' : option string) (p : provider) (st : cache) :
  addr ≠ "" →
  contractsCache st !! addr = Some h →
  useContract (Some addr) a s (Web3 acc None) st = (None, st)
  ∧ useContract (Some addr) a' s' (Web3 acc' (Some p)) st = (Some h, st).
Proof.
  intros Hne Hc. split.
  - apply useContract_unavailable. by right.
  - apply useContract_cached; simpl; eauto.
Qed.

Lemma useContract_disconnected_keeps_cache_witness :
  let st := (useContract (Some "0xA") (Abi []) None sample_conn empty_cache).2 in
  useContract (Some "0xA") (Abi []) None (Web3 None None) st = (None, st)
  ∧ useContract (Some "0xA") (Abi ["x"]) (Some false)
      (Web3 None (Some (Provider 7))) st = (Some 0, st).
Proof.
  apply (useContract_disconnected_keeps_cache "0xA" 0 (Abi []) (Abi ["x"])
           None (Some false) None None (Provider 7)).
  - discriminate.
  - reflexivity.
Defined.

(** X2: after any sequence of lookups from the empty cache there is one
    contract object per cached address: a cached handle names an object
    constructed for that address, two addresses never share a handle, the
    empty address is never cached, and as many objects were constructed as
    there are cached addresses. *)
Theorem cache_one_object_per_address (calls : list lookup_call) :
  let st := run_lookups calls empty_cache in
  (∀ key h, contractsCache st !! key = Some h →
            ∃ c, objects st !! h = Some c ∧ contract_address c = key)
  ∧ (∀ key1 key2 h, contractsCache st !! key1 = Some h →
                    contractsCache st !! key2 = Some h → key1 = key2)
  ∧ contractsCache st !! "" = None
  ∧ length (objects st) = size (contractsCache st).
Proof.
  intros st.
  destruct (run_lookups_wf calls empty_cache cache_wf_empty)
    as (Hkey & Hobj & Hempty & Hsize).
  fold st in Hkey, Hobj, Hempty, Hsize.
  split; [exact Hkey |]. split; [| by split].
  intros key1 key2 h H1 H2.
  destruct (Hkey key1 h H1) as (c1 & Hc1 & <-).
  destruct (Hkey key2 h H2) as (c2 & Hc2 & <-).
  congruence.
Qed.

(** X3: the first lookup of an address binds its handle for good: the
    object keeps the interface descriptor of that call and its runner (the
    signer of that call's provider, or the provider itself when [signer] is
    false), whatever lookups follow, also lookups of the same address with
    another descriptor, mode or provider. *)
Theorem first_lookup_binds_handle
    (addr : string) (a1 : abi) (s1 : option bool) (conn1 : web3)
    (p1 : provider) (between : list lookup_call) (st : cache) :
  addr ≠ "" →
  ethersProvider conn1 = Some p1 →
  contractsCache st !! addr = None →
  let first := useContract (Some addr) a1 s1 conn1 st in
  let st' := run_lookups between first.2 in
  first.1 = Some (length (objects st))
  ∧ contractsCache st' !! addr = Some (length (objects st))
  ∧ objects st' !! length (objects st)
    = Some (Contract addr a1
              (if default true s1 then SignerOf p1 else ReadOnly p1)).
Proof.
  intros Hne Hp Hc first st'. subst first st'.
  rewrite (useContract_fresh addr a1 s1 conn1 p1 st) by done. simpl.
  split; [done |].
  destruct (run_lookups_preserves between
              (Cache (<[addr := length (objects st)]> (contractsCache st))
                 (objects st ++
                    [Contract addr a1
                       (if default true s1 then SignerOf p1 else ReadOnly p1)]))
              addr (length (objects st))) as [Hkept Hobjs].
  { simpl. apply lookup_insert_eq. }
  split; [exact Hkept |]. apply Hobjs. simpl.
  rewrite lookup_app_r by lia. by rewrite Nat.sub_diag.
Qed.

Lemma first_lookup_binds_handle_witness :
  objects
    (run_lookups
       [LookupCall (Some "0xA") (Abi ["transfer"]) (Some false)
          (Web3 None (Some (Provider 9)))]
       (useContract (Some "0xA") (Abi ["balanceOf"]) None sample_conn
          empty_cache).2) !! 0
  = Some (Contract "0xA" (Abi ["balanceOf"]) (SignerOf (Provider 0))).
Proof.
  apply (first_lookup_binds_handle "0xA" (Abi ["balanceOf"]) None sample_conn
           (Provider 0)
           [LookupCall (Some "0xA") (Abi ["transfer"]) (Some false)
              (Web3 None (Some (Provider 9)))] empty_cache).
  - discriminate.
  - reflexivity.
  - reflexivity.
Defined.

(** X4: [useTokenDecimals] knows the two tokens only: 18 for ['ANT'] and
    for ['ANJ'], [undefined] for every other symbol. *)
Theorem useTokenDecimals_table (symbol : string) :
  useTokenDecimals symbol =
    if bool_decide (symbol = "ANT" ∨ symbol = "ANJ") then Some 18%Z else None.
Proof.
  unfold useTokenDecimals, tokenDecimals. simpl.
  destruct (decide (symbol = "ANT")) as [-> | Hant].
  - rewrite bool_decide_true by (by left). apply lookup_insert_eq.
  - rewrite lookup_insert_ne by done.
    destruct (decide (symbol = "ANJ")) as [-> | Hanj].
    + rewrite bool_decide_true by (by right). apply lookup_insert_eq.
    + rewrite lookup_insert_ne by done.
      rewrite bool_decide_false by (by intros [? | ?]). apply lookup_empty.
Qed.

(** ** Hooks without a connection or a known contract *)

Lemma useKnownContract_unavailable known name signer conn st :
  truthy (known name).1 = false ∨ ethersProvider conn = None →
  useKnownContract known name signer conn st = (None, st).
Proof.
  intros H. unfold useKnownContract.
  destruct (known name) as [address a]. by apply useContract_unavailable.
Qed.

(** X5: when the token contract (for the allowance) or the fundraising
    contract (for an order) has no usable address in the registry, or there
    is no provider, the callback returns [false], sends no request and the
    hook leaves the cache as it is. *)
Theorem transactions_fail_closed
    (known : known_contracts) (w : chain) (conn : web3) (st : cache)
    (amount : Z) (toAnj : option bool) (log : list request) :
  (truthy (known "TOKEN_ANT").1 = false ∨ ethersProvider conn = None →
   (useAllowance known w conn st).1 amount log = (Returned JsFalse, log)
   ∧ (useAllowance known w conn st).2 = st)
  ∧ (truthy (known "FUNDRAISING").1 = false ∨ ethersProvider conn = None →
     (useOpenOrder known w conn st).1 amount toAnj log = (Returned JsFalse, log)
     ∧ (useOpenOrder known w conn st).2 = st).
Proof.
  split; intros H.
  - unfold useAllowance.
    rewrite (useKnownContract_unavailable known "TOKEN_ANT" None conn st H).
    by destruct (known "MARKET_MAKER").
  - unfold useOpenOrder.
    rewrite (useKnownContract_unavailable known "FUNDRAISING" None conn st H).
    by destruct (known "TOKEN_ANT").
Qed.

Lemma transactions_fail_closed_witness :
  (useAllowance sample_known sample_chain (Web3 (Some "0xUSER") None)
     empty_cache).1 25%Z [] = (Returned JsFalse, [])
  ∧ (useOpenOrder empty_known sample_chain sample_conn empty_cache).1
      25%Z None [] = (Returned JsFalse, []).
Proof.
  destruct (transactions_fail_closed sample_known sample_chain
              (Web3 (Some "0xUSER") None) empty_cache 25 None [])
    as [Hallow _].
  destruct (transactions_fail_closed empty_known sample_chain sample_conn
              empty_cache 25 None []) as [_ Horder].
  split.
  - apply Hallow. by right.
  - apply Horder. by left.
Defined.

(** X6: when the token of a balance tracker has no usable address in the
    registry, or there is no provider, the effect of the tracker sets the
    balance to -1, issues no balance query, registers no listener, and a
    Transfer event changes nothing. *)
Theorem useTokenBalance_unavailable
    (known : known_contracts) (symbol : string) (address : option string)
    (conn : web3) (st : cache) (t : tracker) :
  truthy (known ("TOKEN_" +:+ symbol)).1 = false ∨ ethersProvider conn = None →
  let d := (useTokenBalance_deps known symbol address conn st).1 in
  balance (trackerEffect d t).1 = (-1)%Z
  ∧ (trackerEffect d t).2 = false
  ∧ length (fetches (trackerEffect d t).1) = length (fetches t)
  ∧ ∀ from to value t', transferEvent d from to value t' = t'.
Proof.
  intros H d. subst d. unfold useTokenBalance_deps.
  rewrite (useKnownContract_unavailable known _ None conn st H). simpl.
  set (d := Deps (account conn) (default "" address) None).
  assert (Hd : no_target d = true) by (apply no_target_spec; by right).
  unfold subscribes, transferEvent, subscribes.
  rewrite updateBalance_length, Hd. simpl.
  split; [| done]. unfold updateBalance. by rewrite Hd.
Qed.

Lemma useTokenBalance_unavailable_witness :
  balance
    (trackerEffect
       (useTokenBalance_deps sample_known "XYZ" None sample_conn empty_cache).1
       (Tracker 77 None [])).1 = (-1)%Z.
Proof.
  apply (useTokenBalance_unavailable sample_known "XYZ" None sample_conn
           empty_cache (Tracker 77 None [])).
  left. reflexivity.
Defined.

(** X7: the price effect does nothing while it lacks an input: with no
    provider, no usable address for the ANJ token or the formula contract,
    or a treasury balance still at -1, it issues no request, leaves
    [loading] and [price] as the last render left them, and registers
    neither a timer nor a cleanup. *)
Theorem useBondingCurvePrice_waits_for_inputs
    (known : known_contracts) (chainId : option string) (amount : Z)
    (forwards : option bool) (t : tracker) (conn : web3) (st : cache)
    (loading0 : bool) (price0 : Z) :
  ethersProvider conn = None
  ∨ truthy (known "TOKEN_ANJ").1 = false
  ∨ truthy (known "BANCOR_FORMULA").1 = false
  ∨ balance t = (-1)%Z →
  let inp :=
    (useBondingCurvePrice_inputs known chainId amount forwards t conn st).1.1 in
  priceEffect inp loading0 price0
    = Quote loading0 price0 false None NotStarted []
  ∧ ∀ e, oracle_step inp (priceEffect inp loading0 price0) e = None.
Proof.
  intros H inp.
  assert (Hidle : priceEffect inp loading0 price0
                  = Quote loading0 price0 false None NotStarted []).
  { subst inp. unfold useBondingCurvePrice_inputs.
    destruct (useKnownContract known "TOKEN_ANJ" None conn st)
      as [anj st1] eqn:Hanj.
    destruct (useKnownContract known "BANCOR_FORMULA" None conn st1)
      as [ban st2] eqn:Hban.
    destruct (known "BONDING_CURVE_TREASURY") as [treasury ?].
    destruct (useTokenBalance_deps known "ANT" treasury conn st2) as [d st3].
    unfold priceEffect. simpl.
    destruct H as [Hp | [Ha | [Hb | Ht]]].
    - rewrite useKnownContract_unavailable in Hanj by (by right).
      injection Hanj as <- <-. done.
    - rewrite useKnownContract_unavailable in Hanj by (by left).
      injection Hanj as <- <-. done.
    - rewrite useKnownContract_unavailable in Hban by (by left).
      injection Hban as <- <-. by rewrite orb_true_r.
    - rewrite Ht. simpl. by rewrite orb_true_r. }
  split; [exact Hidle |]. intros e. rewrite Hidle. by destruct e as [[] | [] | |].
Qed.

Lemma useBondingCurvePrice_waits_for_inputs_witness :
  priceEffect
    (useBondingCurvePrice_inputs sample_known None 100 None tracker_init
       sample_conn empty_cache).1.1 true 5
  = Quote true 5 false None NotStarted [].
Proof.
  apply (useBondingCurvePrice_waits_for_inputs sample_known None 100 None
           tracker_init sample_conn empty_cache true 5).
  right. left. reflexivity.
Defined.

(** ** Balance tracker *)

Lemma updateBalance_balance d t :
  balance (updateBalance d t) = balance t
  ∨ balance (updateBalance d t) = (-1)%Z.
Proof. unfold updateBalance. destruct (no_target d); simpl; by eauto. Qed.

Lemma tracker_step_balance t e :
  balance (tracker_step t e) = balance t
  ∨ balance (tracker_step t e) = (-1)%Z
  ∨ ∃ i, e = BalanceResolved i (balance (tracker_step t e)).
Proof.
  destruct e as [d | i v | i | d from to v]; simpl.
  - destruct (updateBalance_balance d t); eauto.
  - unfold balanceResolved. destruct (fetches t !! i) as [f |]; [| by left].
    destruct (fetch_settled f); [by left |]. simpl.
    destruct (fetch_cancelled f); [by left | right; right; by exists i].
  - left. unfold balanceRejected. destruct (fetches t !! i) as [f |]; [| done].
    by destruct (fetch_settled f).
  - unfold transferEvent, onTransfer. destruct (subscribes d); [| by left].
    destruct (_ || _); [| by left].
    destruct (updateBalance_balance d t); eauto.
Qed.

(** X8: the balance is never made up: after any sequence of events it is
    the balance before them, the sentinel -1, or a value some balance query
    of the sequence resolved to. From the start of the tracker, with no
    resolution yet, it is -1. *)
Theorem balance_comes_from_a_resolution (es : list tracker_event) (t : tracker) :
  balance (tracker_run es t) = balance t
  ∨ balance (tracker_run es t) = (-1)%Z
  ∨ balance (tracker_run es t) ∈ resolved_values es.
Proof.
  revert t. induction es as [| e es IH]; intros t; [by left |].
  change (tracker_run (e :: es) t) with (tracker_run es (tracker_step t e)).
  assert (Hsub : ∀ v, v ∈ resolved_values es → v ∈ resolved_values (e :: es)).
  { intros v Hv. unfold resolved_values in *. simpl.
    destruct e; simpl; try done. by apply list_elem_of_further. }
  destruct (IH (tracker_step t e)) as [Hsame | [Hinit | Hin]].
  - rewrite Hsame.
    destruct (tracker_step_balance t e) as [Hb | [Hb | [i Hb]]];
      [by left | by right; left |].
    right; right. rewrite Hb at 2. unfold resolved_values. simpl.
    apply list_elem_of_here.
  - by right; left.
  - right; right. by apply Hsub.
Qed.

(** X9: a refresh with a target, followed by the resolution of its own
    query, sets the balance to the resolved value, in every state the
    tracker can be in and whatever older queries settle in between: the
    newest refresh is never cancelled by an older one. *)
Theorem refresh_then_resolution_sets_balance
    (t : tracker) (d : deps) (v : Z) (mid : list tracker_event) :
  tracker_reachable t →
  no_target d = false →
  Forall (settles_outside (Some (length (fetches t)))) mid →
  balance
    (tracker_run
       (Refresh d :: mid ++ [BalanceResolved (length (fetches t)) v]) t) = v.
Proof.
  intros Hreach Hd Hmid. apply tracker_reachable_wf in Hreach.
  change (tracker_run (Refresh d :: ?es) t)
    with (tracker_run es (updateBalance d t)).
  unfold tracker_run. rewrite foldl_app. simpl.
  destruct (updateBalance_starts d t Hd) as (Hcur & _ & target & Hfetch).
  destruct (settle_outside_run mid (updateBalance d t)) as (_ & _ & _ & Hkeep).
  - by apply updateBalance_wf.
  - by rewrite Hcur.
  - apply (current_fetch_resolves _ _ target). fold (tracker_run mid (updateBalance d t)).
    rewrite (Hkeep _ Hcur). exact Hfetch.
Qed.

Lemma refresh_then_resolution_sets_balance_witness :
  balance
    (tracker_run
       [Refresh (Deps None "0xT" (Some 0)); BalanceResolved 0 3;
        BalanceResolved 1 8]
       (tracker_run [Refresh (Deps None "0xT" (Some 0))] tracker_init))
  = 8%Z.
Proof.
  apply (refresh_then_resolution_sets_balance
           (tracker_run [Refresh (Deps None "0xT" (Some 0))] tracker_init)
           (Deps None "0xT" (Some 0)) 8 [BalanceResolved 0 3]).
  - eexists. reflexivity.
  - reflexivity.
  - repeat constructor. discriminate.
Defined.

Lemma updateBalance_targets d t :
  Forall (λ f, truthy (fetch_target f) = true) (fetches t) →
  Forall (λ f, truthy (fetch_target f) = true) (fetches (updateBalance d t)).
Proof.
  intros Hall.
  assert (Hfs : Forall (λ f, truthy (fetch_target f) = true)
                  match cancelBalanceUpdate t with
                  | Some i => alter mark_cancelled i (fetches t)
                  | None => fetches t
                  end).
  { destruct (cancelBalanceUpdate t); [| done]. by apply Forall_alter. }
  unfold updateBalance. destruct (no_target d) eqn:Hd; simpl; [done |].
  apply Forall_app. split; [done |]. apply Forall_singleton. simpl.
  unfold no_target in Hd. apply orb_false_iff in Hd as [Hd _].
  destruct (bool_decide (dep_address d ≠ "")) eqn:Haddr; simpl in *.
  - exact Haddr.
  - rewrite Haddr in Hd. simpl in Hd. rewrite andb_true_r in Hd.
    by apply negb_false_iff in Hd.
Qed.

(** X10: every balance query asks for a usable address: in every state
    the tracker can be in, the address of each query issued so far is a
    non-empty string; and a refresh with a target asks for the explicit
    address when there is one, for the account otherwise. *)
Theorem balance_queries_have_a_target (t : tracker) (d : deps) :
  tracker_reachable t →
  Forall (λ f, truthy (fetch_target f) = true) (fetches t)
  ∧ (no_target d = false →
     fetches (updateBalance d t) !! length (fetches t)
     = Some (Fetch (if bool_decide (dep_address d ≠ "")
                    then Some (dep_address d) else dep_account d)
               false false)).
Proof.
  intros [es ->]. split.
  - induction es as [| e es IH] using rev_ind; [constructor |].
    unfold tracker_run in *. rewrite foldl_app. simpl.
    set (t := foldl tracker_step tracker_init es) in *.
    destruct e as [d' | i v | i | d' from to v]; simpl.
    + by apply updateBalance_targets.
    + unfold balanceResolved. destruct (fetches t !! i) as [f |] eqn:Hi; [| done].
      destruct (fetch_settled f); [done |]. simpl.
      apply Forall_insert; [done |]. simpl.
      by apply (Forall_lookup_1 _ _ _ _ IH Hi).
    + unfold balanceRejected. destruct (fetches t !! i) as [f |] eqn:Hi; [| done].
      destruct (fetch_settled f); [done |]. simpl.
      apply Forall_insert; [done |]. simpl.
      by apply (Forall_lookup_1 _ _ _ _ IH Hi).
    + unfold transferEvent, onTransfer. destruct (subscribes d'); [| done].
      destruct (_ || _); [| done]. by apply updateBalance_targets.
  - intros Hd. set (t := tracker_run es tracker_init).
    unfold updateBalance. rewrite Hd. simpl.
    assert (Hlen :
      length (match cancelBalanceUpdate t with
              | Some i => alter mark_cancelled i (fetches t)
              | None => fetches t
              end) = length (fetches t)).
    { destruct (cancelBalanceUpdate t); [apply length_alter | done]. }
    rewrite lookup_app_r by lia. by rewrite Hlen, Nat.sub_diag.
Qed.

Lemma balance_queries_have_a_target_witness :
  fetches (updateBalance (Deps (Some "0xUSER") "0xT" (Some 0)) tracker_init) !! 0
  = Some (Fetch (Some "0xT") false false).
Proof.
  apply (balance_queries_have_a_target tracker_init
           (Deps (Some "0xUSER") "0xT" (Some 0))).
  - exists []. reflexivity.
  - reflexivity.
Defined.

(** ** Price oracle *)

Lemma supply_requests_snoc l r :
  supply_requests (l ++ [r])
  = supply_requests l + (if is_supply_request r then 1 else 0).
Proof.
  unfold supply_requests. rewrite List.filter_app, length_app. simpl.
  by destruct (is_supply_request r).
Qed.

Lemma cleanup_cancels inp q qc :
  oracle_step inp q Cleanup = Some qc →
  quote_cancelled qc ∧ loading qc = loading q ∧ price qc = price q
  ∧ requests qc = requests q.
Proof.
  unfold oracle_step, quote_cancelled. intros Hstep.
  destruct (attempt q) eqn:Hphase; try discriminate;
    try (destruct (cancelled q); [discriminate |]);
    injection Hstep as <-; simpl; rewrite ?Hphase; done.
Qed.

Lemma cancelled_step inp q e q' :
  quote_cancelled q → oracle_step inp q e = Some q' →
  quote_cancelled q' ∧ loading q' = loading q ∧ price q' = price q
  ∧ supply_requests (requests q') = supply_requests (requests q)
  ∧ awaits_left q' < awaits_left q.
Proof.
  intros (Hc & Ht & Hphase) Hstep.
  unfold oracle_step, on_failure in Hstep. rewrite Hc in Hstep.
  unfold quote_cancelled, awaits_left.
  destruct e as [[supply | reason] | [salePrice | reason] | |];
    destruct (attempt q) eqn:Hq; try discriminate; try done;
    try destruct (q_bancorContract inp);
    injection Hstep as <-; simpl;
    rewrite ?supply_requests_snoc; simpl;
    repeat split; try done; try lia;
    by destruct (q_forwards inp); simpl; lia.
Qed.

Lemma cancelled_run inp es : ∀ q q',
  quote_cancelled q → oracle_run inp es q = Some q' →
  quote_cancelled q' ∧ loading q' = loading q ∧ price q' = price q
  ∧ supply_requests (requests q') = supply_requests (requests q)
  ∧ (length es + awaits_left q' ≤ awaits_left q)%nat.
Proof.
  induction es as [| e es IH]; intros q q' Hq Hrun; simpl in Hrun.
  - injection Hrun as <-. repeat split; try done; by destruct Hq as (? & ? & ?).
  - destruct (oracle_step inp q e) as [q1 |] eqn:Hstep; [| discriminate].
    destruct (cancelled_step inp q e q1 Hq Hstep) as (Hq1 & Hl & Hp & Hs & Hm).
    destruct (IH q1 q' Hq1 Hrun) as (Hq' & Hl' & Hp' & Hs' & Hm').
    split; [done |]. repeat split; try congruence. simpl. lia.
Qed.

(** X11: once the cleanup of the effect has run, that run changes nothing
    any more: whatever settles afterwards, [loading] and [price] keep the
    values they had, no retry timer is armed, no new attempt is started, and
    at most two more promises of the run settle. *)
Theorem cancelled_run_changes_nothing
    (inp : quote_inputs) (q qc q' : quote) (es : list oracle_event) :
  oracle_step inp q Cleanup = Some qc →
  oracle_run inp es qc = Some q' →
  loading q' = loading q ∧ price q' = price q
  ∧ cancelled q' = true ∧ retryTimer q' = None ∧ attempt q' ≠ RetryDelay
  ∧ supply_requests (requests q') = supply_requests (requests q)
  ∧ (length es ≤ 2)%nat.
Proof.
  intros Hclean Hrun.
  destruct (cleanup_cancels inp q qc Hclean) as (Hqc & Hl & Hp & Hr).
  destruct (cancelled_run inp es qc q' Hqc Hrun)
    as ((Hc & Ht & Hph) & Hl' & Hp' & Hs' & Hm).
  repeat split; try congruence.
  assert (awaits_left qc ≤ 2)%nat by (unfold awaits_left; destruct (attempt qc); lia).
  lia.
Qed.

Lemma cancelled_run_changes_nothing_witness :
  loading (Quote true (-1) true None Finished
             [TotalSupply 0;
              CalculatePurchaseReturn 1 900%Z 5000%Z (Some 33333%Z) 100%Z])
  = loading (priceEffect ready_inputs false (-1))
  ∧ price (Quote true (-1) true None Finished
             [TotalSupply 0;
              CalculatePurchaseReturn 1 900%Z 5000%Z (Some 33333%Z) 100%Z])
    = price (priceEffect ready_inputs false (-1)).
Proof.
  destruct (cancelled_run_changes_nothing ready_inputs
              (priceEffect ready_inputs false (-1))
              (Quote true (-1) true None AwaitSupply [TotalSupply 0])
              (Quote true (-1) true None Finished
                 [TotalSupply 0;
                  CalculatePurchaseReturn 1 900%Z 5000%Z (Some 33333%Z) 100%Z])
              [SupplySettled (Resolved 900%Z); PriceSettled (Resolved 42%Z)])
    as (Hl & Hp & _).
  - reflexivity.
  - reflexivity.
  - split; [exact Hl | exact Hp].
Defined.

Lemma on_failure_requests q : requests (on_failure q) = requests q.
Proof. unfold on_failure. by destruct (cancelled q). Qed.

Lemma on_failure_started q : attempt (on_failure q) ≠ NotStarted.
Proof. unfold on_failure. by destruct (cancelled q). Qed.

Lemma getSalePrice_requests_inv inp q :
  Forall (valid_request inp) (requests q) →
  Forall (valid_request inp) (requests (getSalePrice inp q)).
Proof.
  intros Hall. unfold getSalePrice.
  destruct (q_anjContract inp) as [c |] eqn:Hanj; simpl.
  - apply Forall_app. split; [done |]. by apply Forall_singleton.
  - by rewrite on_failure_requests.
Qed.

Lemma priceEffect_requests_inv inp loading0 price0 :
  requests_inv inp (priceEffect inp loading0 price0).
Proof.
  unfold priceEffect.
  destruct (_ || _) eqn:Hguard.
  - split; [constructor | by right].
  - split; [by apply getSalePrice_requests_inv; constructor |].
    left. apply orb_false_iff in Hguard as [Hguard _].
    apply orb_false_iff in Hguard as [_ Hbal]. by apply Z.eqb_neq in Hbal.
Qed.

Lemma oracle_step_requests_inv inp q e q' :
  requests_inv inp q → oracle_step inp q e = Some q' → requests_inv inp q'.
Proof.
  intros [Hall Hguard] Hstep.
  assert (Hbal : q_antTreasuryBalance inp ≠ (-1)%Z).
  { destruct Hguard as [? | [_ Hphase]]; [done |].
    unfold oracle_step in Hstep. rewrite Hphase in Hstep.
    by destruct e as [[] | [] | |]. }
  split; [| by left]. unfold oracle_step in Hstep.
  destruct e as [[supply | reason] | [salePrice | reason] | |];
    destruct (attempt q) eqn:Hphase; try discriminate;
    try (destruct (cancelled q); try discriminate);
    try (destruct (q_bancorContract inp) as [b |] eqn:Hban);
    injection Hstep as <-; simpl;
    rewrite ?on_failure_requests; try done;
    try (by apply getSalePrice_requests_inv).
  all: apply Forall_app; split; [done |]; apply Forall_singleton;
    by destruct (q_forwards inp) eqn:Hfw.
Qed.

(** X12: every request of a quote computation is the one its inputs
    call for: [totalSupply] goes to the ANJ token; a formula call goes to
    the formula contract, is [calculatePurchaseReturn] when [forwards] and
    [calculateSaleReturn] otherwise, and carries the treasury balance, the
    connector weight and the amount of the inputs; and no request is ever
    issued with the treasury balance at -1. *)
Theorem price_requests_follow_inputs
    (inp : quote_inputs) (loading0 : bool) (price0 : Z)
    (es : list oracle_event) (q : quote) :
  oracle_run inp es (priceEffect inp loading0 price0) = Some q →
  Forall (valid_request inp) (requests q)
  ∧ (requests q ≠ [] → q_antTreasuryBalance inp ≠ (-1)%Z).
Proof.
  intros Hrun.
  assert (Hinv : requests_inv inp q).
  { revert Hrun. generalize (priceEffect_requests_inv inp loading0 price0).
    generalize (priceEffect inp loading0 price0).
    induction es as [| e es IH]; intros q0 Hq0 Hrun; simpl in Hrun.
    - by injection Hrun as <-.
    - destruct (oracle_step inp q0 e) as [q1 |] eqn:Hstep; [| discriminate].
      apply (IH q1); [| done]. by apply (oracle_step_requests_inv inp q0 e). }
  destruct Hinv as [Hall Hguard]. split; [done |].
  intros Hne. by destruct Hguard as [? | [? _]].
Qed.

Lemma price_requests_follow_inputs_witness :
  Forall (valid_request ready_inputs)
    [TotalSupply 0;
     CalculatePurchaseReturn 1 900%Z 5000%Z (Some 33333%Z) 100%Z].
Proof.
  apply (price_requests_follow_inputs ready_inputs false (-1)
           [SupplySettled (Resolved 900%Z)]
           (Quote true (-1) false None AwaitPrice
              [TotalSupply 0;
               CalculatePurchaseReturn 1 900%Z 5000%Z (Some 33333%Z) 100%Z])).
  reflexivity.
Defined.

Lemma finished_step inp q e q' :
  attempt q = Finished → oracle_step inp q e = Some q' →
  attempt q' = Finished ∧ price q' = price q ∧ loading q' = loading q
  ∧ requests q' = requests q.
Proof.
  intros Hphase Hstep. unfold oracle_step in Hstep. rewrite Hphase in Hstep.
  destruct e as [[] | [] | |]; try discriminate.
  destruct (cancelled q); [discriminate |]. by injection Hstep as <-.
Qed.

Lemma finished_run inp es : ∀ q q',
  attempt q = Finished → oracle_run inp es q = Some q' →
  attempt q' = Finished ∧ price q' = price q ∧ loading q' = loading q
  ∧ requests q' = requests q.
Proof.
  induction es as [| e es IH]; intros q q' Hphase Hrun; simpl in Hrun.
  - by injection Hrun as <-.
  - destruct (oracle_step inp q e) as [q1 |] eqn:Hstep; [| discriminate].
    destruct (finished_step inp q e q1 Hphase Hstep) as (Hph & Hp & Hl & Hr).
    destruct (IH q1 q' Hph Hrun) as (Hph' & Hp' & Hl' & Hr').
    repeat split; congruence.
Qed.

Lemma price_step inp q e q' :
  oracle_step inp q e = Some q' →
  price q' = price q
  ∨ e = PriceSettled (Resolved (price q')) ∧ loading q' = false
    ∧ attempt q' = Finished.
Proof.
  intros Hstep.
  unfold oracle_step, getSalePrice, on_failure in Hstep. simpl in Hstep.
  destruct e as [[supply | reason] | [salePrice | reason] | |];
    destruct (attempt q) eqn:Hphase; try discriminate;
    destruct (cancelled q) eqn:Hc;
    try destruct (q_bancorContract inp);
    try destruct (q_anjContract inp);
    try discriminate;
    injection Hstep as <-; simpl; eauto.
Qed.

Lemma price_run inp es : ∀ q q',
  oracle_run inp es q = Some q' →
  price q' = price q
  ∨ PriceSettled (Resolved (price q')) ∈ es ∧ loading q' = false
    ∧ attempt q' = Finished.
Proof.
  induction es as [| e es IH]; intros q q' Hrun; simpl in Hrun.
  - injection Hrun as <-. by left.
  - destruct (oracle_step inp q e) as [q1 |] eqn:Hstep; [| discriminate].
    destruct (IH q1 q' Hrun) as [Hsame | (Hin & Hl & Hph)].
    + destruct (price_step inp q e q1 Hstep) as [Hp | (He & Hl & Hph)].
      * left. congruence.
      * right. destruct (finished_run inp es q1 q' Hph Hrun)
          as (Hph' & _ & Hl' & _).
        split; [| split; congruence].
        rewrite Hsame, <- He. apply list_elem_of_here.
    + right. split; [by apply list_elem_of_further | done].
Qed.

(** X13: a quote computation stores at most one price: the price is the
    one the render started with, or the value a formula call of this run
    resolved to; and once a price is stored, [loading] is false, the run
    is over, and nothing that happens afterwards changes the price, the
    flag or the requests. *)
Theorem price_is_stored_once
    (inp : quote_inputs) (loading0 : bool) (price0 : Z)
    (es es' : list oracle_event) (q q' : quote) :
  oracle_run inp es (priceEffect inp loading0 price0) = Some q →
  (price q = price0 ∨ PriceSettled (Resolved (price q)) ∈ es)
  ∧ (price q ≠ price0 →
     loading q = false ∧ attempt q = Finished
     ∧ (oracle_run inp es' q = Some q' →
        price q' = price q ∧ loading q' = false
        ∧ requests q' = requests q)).
Proof.
  intros Hrun.
  assert (Hstart : price (priceEffect inp loading0 price0) = price0).
  { unfold priceEffect, getSalePrice, on_failure.
    destruct (_ || _); [done |]. by destruct (q_anjContract inp). }
  destruct (price_run inp es _ q Hrun) as [Hsame | (Hin & Hl & Hph)].
  - rewrite Hstart in Hsame. split; [by left |]. done.
  - split; [by right |]. intros _. split; [done |]. split; [done |].
    intros Hrun'.
    destruct (finished_run inp es' q q' Hph Hrun') as (_ & Hp' & Hl' & Hr').
    repeat split; congruence.
Qed.

Lemma price_is_stored_once_witness :
  price (Quote false 42 false None Finished
           [TotalSupply 0;
            CalculatePurchaseReturn 1 900%Z 5000%Z (Some 33333%Z) 100%Z])
  = (-1)%Z
  ∨ PriceSettled (Resolved 42%Z)
    ∈ [SupplySettled (Resolved 900%Z); PriceSettled (Resolved 42%Z)].
Proof.
  apply (price_is_stored_once ready_inputs false (-1)
           [SupplySettled (Resolved 900%Z); PriceSettled (Resolved 42%Z)] []
           (Quote false 42 false None Finished
              [TotalSupply 0;
               CalculatePurchaseReturn 1 900%Z 5000%Z (Some 33333%Z) 100%Z])
           (Quote false 42 false None Finished [])).
  reflexivity.
Defined.

Lemma supply_requests_step inp q e q' :
  is_Some (q_anjContract inp) → oracle_step inp q e = Some q' →
  supply_requests (requests q')
  = supply_requests (requests q) + (if is_timer e then 1 else 0).
Proof.
  intros [c Hanj] Hstep.
  unfold oracle_step, getSalePrice, on_failure in Hstep.
  rewrite Hanj in Hstep. simpl in Hstep.
  destruct e as [[supply | reason] | [salePrice | reason] | |];
    destruct (attempt q) eqn:Hphase; try discriminate;
    destruct (cancelled q) eqn:Hc;
    try destruct (q_bancorContract inp);
    try discriminate;
    injection Hstep as <-; simpl;
    rewrite ?supply_requests_snoc; simpl; try lia;
    by destruct (q_forwards inp); simpl; lia.
Qed.

(** X14: attempts are started by the effect and by the retry timer only:
    when the effect passes its guard, the number of [totalSupply] requests
    issued so far is one more than the number of retry timers that fired. *)
Theorem one_attempt_per_timer
    (inp : quote_inputs) (loading0 : bool) (price0 : Z)
    (es : list oracle_event) (q : quote) :
  is_Some (q_anjContract inp) →
  is_Some (q_bancorContract inp) →
  q_antTreasuryBalance inp ≠ (-1)%Z →
  oracle_run inp es (priceEffect inp loading0 price0) = Some q →
  supply_requests (requests q) = S (timers_fired es).
Proof.
  intros Hanj Hban Hbal Hrun.
  assert (Hstart : supply_requests (requests (priceEffect inp loading0 price0)) = 1).
  { unfold priceEffect, getSalePrice.
    destruct Hanj as [c ->], Hban as [b ->].
    apply Z.eqb_neq in Hbal. rewrite Hbal. reflexivity. }
  assert (Hgen : ∀ es q0 q1, oracle_run inp es q0 = Some q1 →
            supply_requests (requests q1)
            = supply_requests (requests q0) + timers_fired es).
  { clear es q Hrun Hstart. induction es as [| e es IH]; intros q0 q1 Hrun;
      simpl in Hrun.
    - injection Hrun as <-. unfold timers_fired. simpl. lia.
    - destruct (oracle_step inp q0 e) as [q2 |] eqn:Hstep; [| discriminate].
      rewrite (IH q2 q1 Hrun), (supply_requests_step inp q0 e q2 Hanj Hstep).
      unfold timers_fired. simpl. destruct (is_timer e); simpl; lia. }
  rewrite (Hgen es _ q Hrun), Hstart. lia.
Qed.

Lemma one_attempt_per_timer_witness :
  supply_requests
    [TotalSupply 0; TotalSupply 0;
     CalculatePurchaseReturn 1 900%Z 5000%Z (Some 33333%Z) 100%Z]
  = 2.
Proof.
  apply (one_attempt_per_timer ready_inputs false (-1)
           [SupplySettled (Failed "timeout"); TimerFired;
            SupplySettled (Resolved 900%Z); PriceSettled (Failed "revert")]
           (Quote true (-1) false (Some 1000%Z) RetryDelay
              [TotalSupply 0; TotalSupply 0;
               CalculatePurchaseReturn 1 900%Z 5000%Z (Some 33333%Z) 100%Z])).
  - simpl. eauto.
  - simpl. eauto.
  - discriminate.
  - reflexivity.
Defined.

(** ** Transactions *)

Ltac appended :=
  eexists; split;
  [ first [ reflexivity
          | rewrite <- app_assoc; reflexivity
          | symmetry; apply app_nil_r ]
  | simpl; split;
    [ lia
    | repeat (apply Forall_cons_2; [simpl; eauto |]); constructor ] ].

(** X15: whatever the chain answers, a call of the allowance, the order
    or the claim callback only appends to the log of requests, submits at
    most one transaction, and never attaches ether to it: the value is 0
    for a buy order and absent otherwise. *)
Theorem callbacks_send_at_most_one_transaction
    (known : known_contracts) (w : chain) (conn : web3) (st : cache)
    (amount : Z) (hash : string) (toAnj : option bool) (log : list request) :
  sends_at_most_one log ((useAllowance known w conn st).1 amount log).2
  ∧ sends_at_most_one log ((useOpenOrder known w conn st).1 amount toAnj log).2
  ∧ sends_at_most_one log ((useClaimOrder known w conn st).1 hash toAnj log).2.
Proof.
  unfold useAllowance, useOpenOrder, useClaimOrder.
  destruct (useKnownContract known "TOKEN_ANT" None conn st) as [ant st1].
  destruct (useKnownContract known "FUNDRAISING" None conn st) as [fc st2].
  destruct (known "MARKET_MAKER") as [mm mmAbi].
  destruct (known "TOKEN_ANT") as [antAddress antAbi]. simpl.
  unfold sends_at_most_one. split; [| split].
  - unfold ensureAllowance, mbind, async_bind, await.
    destruct ant as [c |]; [| appended].
    destruct (allowance_of w c (account conn) mm) as [a | reason]; [| appended].
    destruct (a <? amount)%Z; [| appended].
    destruct (send w _); appended.
  - unfold openOrder, mbind, async_bind, await.
    destruct fc as [c |]; [| appended].
    destruct (default true toAnj); destruct (send w _); appended.
  - unfold claimOrder, async_throw, mbind, async_bind, await.
    destruct (ethersProvider conn) as [p |]; [| appended].
    destruct (transaction_of w p hash) as [[t |] | reason]; try appended.
    destruct (default true toAnj); destruct fc as [c |]; try appended;
      destruct (send w _); appended.
Qed.

(** X16: when the allowance query is rejected, the allowance callback is
    rejected with the same reason after that one request: no approval is
    submitted. *)
Theorem allowance_query_rejection
    (known : known_contracts) (w : chain) (conn : web3) (st : cache)
    (amount : Z) (log : list request) (c : nat) (reason : string) :
  (useKnownContract known "TOKEN_ANT" None conn st).1 = Some c →
  allowance_of w c (account conn) (known "MARKET_MAKER").1 = Failed reason →
  (useAllowance known w conn st).1 amount log
  = (Thrown (Rejection reason),
     log ++ [QueryAllowance c (account conn) (known "MARKET_MAKER").1]).
Proof.
  unfold useAllowance.
  destruct (useKnownContract known "TOKEN_ANT" None conn st) as [ant st'].
  destruct (known "MARKET_MAKER") as [mm mmAbi]. simpl.
  intros -> Hfail.
  unfold ensureAllowance, mbind, async_bind, await. by rewrite Hfail.
Qed.

Lemma allowance_query_rejection_witness :
  (useAllowance sample_known failing_chain sample_conn empty_cache).1 25%Z []
  = (Thrown (Rejection "network error"),
     [QueryAllowance 0 (Some "0xUSER") (Some "0xMM")]).
Proof.
  apply (allowance_query_rejection sample_known failing_chain sample_conn
           empty_cache 25 [] 0 "network error"); reflexivity.
Defined.

Lemma submitted_submit log tx :
  submitted (log ++ [Submit tx]) = submitted log ++ [tx].
Proof. unfold submitted. by rewrite omap_app. Qed.

Lemma submitted_grows log tx : submitted log ++ [tx] ≠ submitted log.
Proof.
  intros Heq. apply (f_equal length) in Heq.
  rewrite length_app in Heq. simpl in Heq. lia.
Qed.

(** X17: a claim submits a transaction exactly when there is a provider,
    there is a fundraising contract handle, and the lookup of the order's
    transaction resolves to a transaction; in every other case the log of
    submitted transactions is left as it was. *)
Theorem claim_submits_iff_transaction_found
    (known : known_contracts) (w : chain) (conn : web3) (st : cache)
    (hash : string) (toAnj : option bool) (log : list request) :
  submitted ((useClaimOrder known w conn st).1 hash toAnj log).2
    ≠ submitted log
  ↔ ∃ p c t,
      ethersProvider conn = Some p
      ∧ (useKnownContract known "FUNDRAISING" None conn st).1 = Some c
      ∧ transaction_of w p hash = Resolved (Some t).
Proof.
  unfold useClaimOrder.
  destruct (useKnownContract known "FUNDRAISING" None conn st) as [fc st'].
  destruct (known "TOKEN_ANT") as [antAddress antAbi]. simpl.
  unfold claimOrder, async_throw, mbind, async_bind, await.
  destruct (ethersProvider conn) as [p |].
  2: { split; [done |]. by intros (? & ? & ? & ? & _). }
  assert (Hquery : submitted (log ++ [QueryTransaction p hash]) = submitted log)
    by (by apply submitted_query).
  destruct (transaction_of w p hash) as [[t |] | reason] eqn:Ht; simpl.
  - destruct fc as [c |].
    + split; [intros _; by exists p, c, t |]. intros _.
      destruct (default true toAnj); destruct (send w _); simpl;
        rewrite submitted_submit, Hquery; apply submitted_grows.
    + split; [| by intros (? & ? & ? & _ & ? & _)].
      by destruct (default true toAnj).
  - split; [done |]. intros (p' & ? & ? & [= <-] & _ & Ht'). congruence.
  - split; [done |]. intros (p' & ? & ? & [= <-] & _ & Ht'). congruence.
Qed.

(** X18: the batch of a claim is whatever block number the looked-up
    transaction has, with no check that it was mined: for a pending
    transaction, whose block number is [null], the claim is submitted all
    the same, with a [null] batch. *)
Theorem claim_of_pending_transaction
    (known : known_contracts) (w : chain) (conn : web3) (st : cache)
    (hash : string) (toAnj : option bool) (log : list request)
    (p : provider) (c : nat) (t : transaction) :
  ethersProvider conn = Some p →
  (useKnownContract known "FUNDRAISING" None conn st).1 = Some c →
  transaction_of w p hash = Resolved (Some t) →
  blockNumber t = None →
  let claim :=
    if default true toAnj
    then ClaimBuyOrder c (account conn) None (known "TOKEN_ANT").1
           (Overrides 500000 None)
    else ClaimSellOrder c (account conn) None (known "TOKEN_ANT").1
           (Overrides 500000 None) in
  (useClaimOrder known w conn st).1 hash toAnj log
  = (submission_result (send w claim),
     log ++ [QueryTransaction p hash; Submit claim]).
Proof.
  intros Hp Hc Ht Hpending claim. subst claim. unfold useClaimOrder.
  destruct (useKnownContract known "FUNDRAISING" None conn st) as [fc st'].
  destruct (known "TOKEN_ANT") as [ant antAbi]. simpl in *. subst fc.
  unfold claimOrder, mbind, async_bind, await. rewrite Hp, Ht, Hpending.
  destruct (default true toAnj); destruct (send w _); simpl;
    by rewrite <- app_assoc.
Qed.

Lemma claim_of_pending_transaction_witness :
  (useClaimOrder sample_known
     (Chain (λ _ _ _, Resolved 10%Z)
        (λ _ _, Resolved (Some (Transaction "0xpending" None)))
        (λ _, Failed "invalid batch"))
     sample_conn empty_cache).1 "0xpending" None []
  = (Thrown (Rejection "invalid batch"),
     [QueryTransaction (Provider 0) "0xpending";
      Submit (ClaimBuyOrder 0 (Some "0xUSER") None (Some "0xANT")
                (Overrides 500000 None))]).
Proof.
  apply (claim_of_pending_transaction sample_known
           (Chain (λ _ _ _, Resolved 10%Z)
              (λ _ _, Resolved (Some (Transaction "0xpending" None)))
              (λ _, Failed "invalid batch"))
           sample_conn empty_cache "0xpending" None [] (Provider 0) 0
           (Transaction "0xpending" None)); reflexivity.
Defined.

(** X19: with a provider, a claim whose transaction is not found ends,
    after the lookup, with the [TypeError] of destructuring the missing
    transaction, and one whose lookup is rejected ends with that rejection;
    this holds with and without a fundraising contract handle. *)
Theorem claim_lookup_failure
    (known : known_contracts) (w : chain) (conn : web3) (st : cache)
    (hash : string) (toAnj : option bool) (log : list request)
    (p : provider) :
  ethersProvider conn = Some p →
  (transaction_of w p hash = Resolved None →
   (useClaimOrder known w conn st).1 hash toAnj log
   = (Thrown (TypeErrorOn "blockNumber"), log ++ [QueryTransaction p hash]))
  ∧ (∀ reason,
       transaction_of w p hash = Failed reason →
       (useClaimOrder known w conn st).1 hash toAnj log
       = (Thrown (Rejection reason), log ++ [QueryTransaction p hash])).
Proof.
  intros Hp. unfold useClaimOrder.
  destruct (useKnownContract known "FUNDRAISING" None conn st) as [fc st'].
  destruct (known "TOKEN_ANT") as [ant antAbi]. simpl.
  unfold claimOrder, async_throw, mbind, async_bind, await. rewrite Hp.
  split.
  - by intros ->.
  - by intros reason ->.
Qed.

Lemma claim_lookup_failure_witness :
  (useClaimOrder sample_known sample_chain sample_conn empty_cache).1
    "0xunknown" None []
  = (Thrown (TypeErrorOn "blockNumber"),
     [QueryTransaction (Provider 0) "0xunknown"])
  ∧ (useClaimOrder sample_known failing_chain sample_conn empty_cache).1
      "0xopen" None []
    = (Thrown (Rejection "network error"),
       [QueryTransaction (Provider 0) "0xopen"]).
Proof.
  destruct (claim_lookup_failure sample_known sample_chain sample_conn
              empty_cache "0xunknown" None [] (Provider 0)) as [Hmissing _];
    [reflexivity |].
  destruct (claim_lookup_failure sample_known failing_chain sample_conn
              empty_cache "0xopen" None [] (Provider 0)) as [_ Hrejected];
    [reflexivity |].
  split.
  - apply Hmissing. reflexivity.
  - apply (Hrejected "network error"). reflexivity.
Defined.

(** X20: the orders and the claims of a session go to one contract
    object: once the order hook has a fundraising handle, every transaction
    its callback submits goes to that handle, and so does every transaction
    a claim callback submits later, whatever lookups happened in between
    and whatever connection the later render has. *)
Theorem orders_and_claims_share_the_handle
    (known : known_contracts) (w w' : chain) (conn conn' : web3) (st : cache)
    (between : list lookup_call) (amount : Z) (hash : string)
    (toAnj toAnj' : option bool) (c : nat) :
  (useKnownContract known "FUNDRAISING" None conn st).1 = Some c →
  let st' := run_lookups between (useOpenOrder known w conn st).2 in
  Forall (λ tx, tx_handle tx = c)
    (submitted ((useOpenOrder known w conn st).1 amount toAnj []).2)
  ∧ Forall (λ tx, tx_handle tx = c)
      (submitted ((useClaimOrder known w' conn' st').1 hash toAnj' []).2).
Proof.
  intros Hc st'. subst st'. unfold useOpenOrder, useClaimOrder.
  unfold useKnownContract in *.
  destruct (known "FUNDRAISING") as [address fAbi].
  destruct (useContract_result_cached address fAbi None conn st c Hc)
    as (addr & -> & Hne & Hcached).
  destruct (useContract (Some addr) fAbi None conn st) as [fc st1].
  simpl in Hc, Hcached. subst fc.
  destruct (known "TOKEN_ANT") as [antAddress antAbi]. simpl.
  split.
  - unfold openOrder, mbind, async_bind, await.
    destruct (default true toAnj); destruct (send w _); simpl;
      by repeat constructor.
  - destruct (run_lookups_preserves between st1 addr c Hcached) as [Hkept _].
    destruct (ethersProvider conn') as [p' |] eqn:Hp'.
    + rewrite (useContract_cached addr fAbi None conn' _ c) by eauto.
      simpl. unfold claimOrder, async_throw, mbind, async_bind, await.
      destruct (transaction_of w' p' hash) as [[t |] | reason]; simpl;
        try by constructor.
      destruct (default true toAnj'); destruct (send w' _); simpl;
        by repeat constructor.
    + rewrite useContract_unavailable by (by right). simpl.
      unfold claimOrder, async_throw. simpl. constructor.
Qed.

Lemma orders_and_claims_share_the_handle_witness :
  Forall (λ tx, tx_handle tx = 0)
    (submitted
       ((useClaimOrder sample_known sample_chain
           (Web3 (Some "0xOTHER") (Some (Provider 3)))
           (useOpenOrder sample_known sample_chain sample_conn
              empty_cache).2).1 "0xopen" None []).2).
Proof.
  apply (orders_and_claims_share_the_handle sample_known sample_chain
           sample_chain sample_conn (Web3 (Some "0xOTHER") (Some (Provider 3)))
           empty_cache [] 70 "0xopen" None None 0).
  reflexivity.
Defined.

Lemma oracle_run_app inp es1 : ∀ es2 q,
  oracle_run inp (es1 ++ es2) q
  = match oracle_run inp es1 q with
    | Some q' => oracle_run inp es2 q'
    | None => None
    end.
Proof.
  induction es1 as [| e es1 IH]; intros es2 q; simpl; [done |].
  destruct (oracle_step inp q e); [apply IH | done].
Qed.

Lemma failed_attempt_retries inp c b f q :
  q_anjContract inp = Some c → q_bancorContract inp = Some b →
  attempt q = AwaitSupply → cancelled q = false →
  ∃ q', oracle_run inp (failed_attempt_events f) q = Some q'
        ∧ attempt q' = AwaitSupply ∧ cancelled q' = false
        ∧ price q' = price q.
Proof.
  intros Hanj Hban Hphase Hc.
  destruct f as [reason | supply reason]; simpl;
    unfold oracle_step, on_failure, getSalePrice; simpl;
    rewrite ?Hphase, ?Hban, ?Hc, ?Hanj; simpl;
    rewrite ?Hc, ?Hanj; simpl; eauto.
Qed.

(** X21: retrying ends with the price: when the effect passes its guard,
    after any number of failed attempts, each followed by its retry timer,
    an attempt whose supply and formula calls resolve stores the value of
    the formula call as the price, clears [loading] and leaves no timer
    pending. *)
Theorem retries_end_with_the_price
    (inp : quote_inputs) (loading0 : bool) (price0 : Z)
    (fs : list failed_attempt) (anjTotalSupply salePrice : Z) :
  is_Some (q_anjContract inp) →
  is_Some (q_bancorContract inp) →
  q_antTreasuryBalance inp ≠ (-1)%Z →
  ∃ q,
    oracle_run inp
      (retries fs ++ [SupplySettled (Resolved anjTotalSupply);
                      PriceSettled (Resolved salePrice)])
      (priceEffect inp loading0 price0) = Some q
    ∧ price q = salePrice ∧ loading q = false
    ∧ attempt q = Finished ∧ retryTimer q = None.
Proof.
  intros [c Hanj] [b Hban] Hbal.
  assert (Hstart : attempt (priceEffect inp loading0 price0) = AwaitSupply
                   ∧ cancelled (priceEffect inp loading0 price0) = false
                   ∧ retryTimer (priceEffect inp loading0 price0) = None).
  { unfold priceEffect, getSalePrice. rewrite Hanj, Hban.
    apply Z.eqb_neq in Hbal. rewrite Hbal. done. }
  destruct Hstart as (Hphase & Hc & Ht).
  revert Hphase Hc Ht. generalize (priceEffect inp loading0 price0).
  induction fs as [| f fs IH]; intros q0 Hphase Hc Ht.
  - simpl. unfold oracle_step. rewrite Hphase, Hban. simpl. rewrite Hc.
    eexists. split; [reflexivity |]. done.
  - unfold retries. simpl. rewrite <- app_assoc, oracle_run_app.
    destruct (failed_attempt_retries inp c b f q0 Hanj Hban Hphase Hc)
      as (q1 & Hrun & Hphase1 & Hc1 & _).
    rewrite Hrun.
    assert (Ht1 : retryTimer q1 = None).
    { revert Hrun. destruct f as [reason | supply reason]; simpl;
        unfold oracle_step, on_failure, getSalePrice; simpl;
        rewrite ?Hphase, ?Hban, ?Hc, ?Hanj; simpl;
        rewrite ?Hc, ?Hanj; simpl; by intros [= <-]. }
    apply (IH q1 Hphase1 Hc1 Ht1).
Qed.

Lemma retries_end_with_the_price_witness :
  ∃ q,
    oracle_run ready_inputs
      (retries [SupplyFails "timeout"; PriceFails 900 "revert"]
         ++ [SupplySettled (Resolved 901%Z); PriceSettled (Resolved 42%Z)])
      (priceEffect ready_inputs false (-1)) = Some q
    ∧ price q = 42%Z ∧ loading q = false
    ∧ attempt q = Finished ∧ retryTimer q = None.
Proof.
  apply (retries_end_with_the_price ready_inputs false (-1)
           [SupplyFails "timeout"; PriceFails 900 "revert"] 901 42).
  - simpl. eauto.
  - simpl. eauto.
  - discriminate.
Defined.
